(** * Output-location assignment of the folder organizers

    A shallow embedding of the parts of [generate_folders.py],
    [organize_with_gemini.py] and [groups_file.py] that decide where a
    source file goes: name sanitization, duplicate-name resolution,
    extension filtering, the dry-run switch, the exit codes of the two
    command-line entry points and the upload size ceiling; and of what
    [groups_file.py] and [join_group.py] make of the answers of the Bot
    API: the batch upload, the groups, the files of a chat and the list
    of groups to join.

    Conventions of the embedding.
    - A Python [str] is a list of Unicode code points ([Str := list N]).
      [py "abc"] writes an ASCII literal.
    - The regular-expression classes of [generate_folders.py] are ASCII
      and are given in full.  [str.isalnum] is given in full below U+0080;
      above, it is the Unicode table of the running interpreter, a
      [Variable] of the sections that need it.  [str.lower] is a
      [Variable] as a whole (it is not a per-character map).
    - The filesystem is a finite map from paths (lists of components) to
      nodes; an operation that can raise returns a [Res].  A script is a
      computation over a [World]: the filesystem and the lines printed
      or logged so far.
    - The two unbounded [while] loops run on a bound computed from the
      filesystem, which is proved never to be what stops them. *)

From Stdlib Require Import NArith ZArith List Ascii String Lia DecimalNat.
From stdpp Require Import base option list gmap.

Local Open Scope N_scope.

(** ** Strings *)

Abbreviation Str := (list N).

Definition py (s : string) : Str :=
  List.map N_of_ascii (list_ascii_of_string s).

Definition is_empty {A} (l : list A) : bool :=
  match l with [] => true | _ => false end.

(** [a or b] on strings: the first operand unless it is empty. *)
Definition str_or (a b : Str) : Str := if is_empty a then b else a.

Definition in_range (lo hi c : N) : bool := (lo <=? c) && (c <=? hi).

Definition chr_dash : N := 45.
Definition chr_dot : N := 46.
Definition chr_underscore : N := 95.
Definition chr_space : N := 32.

(** Whether the two-character string [sep sep] occurs in [s]. *)
Fixpoint has_double (sep : N) (s : Str) : bool :=
  match s with
  | [] => false
  | a :: r =>
      match r with
      | b :: _ => ((a =? sep) && (b =? sep)) || has_double sep r
      | [] => false
      end
  end.

Definition ascii_alnum (c : N) : bool :=
  in_range 65 90 c || in_range 97 122 c || in_range 48 57 c.

(** [s.lstrip(chars)], [s.rstrip(chars)], [s.strip(chars)] with the set
    of characters given as a predicate. *)
Fixpoint lstrip (P : N -> bool) (s : Str) : Str :=
  match s with
  | [] => []
  | c :: r => if P c then lstrip P r else s
  end.

Definition rstrip (P : N -> bool) (s : Str) : Str :=
  rev (lstrip P (rev s)).

Definition strip (P : N -> bool) (s : Str) : Str :=
  rstrip P (lstrip P s).

(** [str.isspace] per character, the table [str.strip()] uses. *)
Definition isspace (c : N) : bool :=
  in_range 9 13 c || in_range 28 32 c || (c =? 133) || (c =? 160)
  || (c =? 5760) || in_range 8192 8202 c || (c =? 8232) || (c =? 8233)
  || (c =? 8239) || (c =? 8287) || (c =? 12288).

(** [hay.startswith(needle)] *)
Fixpoint starts_with (needle hay : Str) : bool :=
  match needle, hay with
  | [], _ => true
  | c :: needle', d :: hay' => (c =? d) && starts_with needle' hay'
  | _ :: _, [] => false
  end.

(** [needle in hay] on strings. *)
Fixpoint contains (needle hay : Str) : bool :=
  starts_with needle hay
  || match hay with
     | [] => false
     | _ :: hay' => contains needle hay'
     end.

(** [str(n)] for a non-negative integer. *)
Fixpoint digits (d : Decimal.uint) : Str :=
  match d with
  | Decimal.Nil => []
  | Decimal.D0 d => 48 :: digits d
  | Decimal.D1 d => 49 :: digits d
  | Decimal.D2 d => 50 :: digits d
  | Decimal.D3 d => 51 :: digits d
  | Decimal.D4 d => 52 :: digits d
  | Decimal.D5 d => 53 :: digits d
  | Decimal.D6 d => 54 :: digits d
  | Decimal.D7 d => 55 :: digits d
  | Decimal.D8 d => 56 :: digits d
  | Decimal.D9 d => 57 :: digits d
  end.

Definition str_of_nat (n : nat) : Str := digits (Nat.to_uint n).

(** ** generate_folders.py: [sanitize_for_dir_name] *)

(** The class [[A-Za-z0-9._-]]. *)
Definition dir_name_class (c : N) : bool :=
  ascii_alnum c || (c =? chr_dot) || (c =? chr_underscore) || (c =? chr_dash).

(** [re.sub(r"[^A-Za-z0-9._-]", "-", name)] *)
Definition sub_outside_class (name : Str) : Str :=
  List.map (fun c => if dir_name_class c then c else chr_dash) name.

(** [re.sub(r"-+", "-", s)]: every maximal run of dashes becomes one. *)
Fixpoint sub_dash_runs (s : Str) : Str :=
  match s with
  | [] => []
  | c :: r =>
      match r with
      | c' :: _ =>
          if (c =? chr_dash) && (c' =? chr_dash) then sub_dash_runs r
          else c :: sub_dash_runs r
      | [] => [c]
      end
  end.

(** The argument ["-._"] of [strip]. *)
Definition dash_dot_underscore (c : N) : bool :=
  (c =? chr_dash) || (c =? chr_dot) || (c =? chr_underscore).

Definition item : Str := py "item".

Definition sanitize_for_dir_name (name : Str) : Str :=
  let sanitized := sub_outside_class name in
  let sanitized := strip dash_dot_underscore (sub_dash_runs sanitized) in
  str_or sanitized item.

(** ** organize_with_gemini.py: [sanitize_folder_name] *)

(** The argument ["._"] of the second [strip]. *)
Definition dot_underscore (c : N) : bool :=
  (c =? chr_dot) || (c =? chr_underscore).

(** ["__" in safe] *)
Definition has_dunder (s : Str) : bool := has_double chr_underscore s.

(** [safe.replace("__", "_")]: one pass, left to right, over the
    non-overlapping occurrences. *)
Fixpoint replace_dunder (s : Str) : Str :=
  match s with
  | [] => []
  | a :: r =>
      match r with
      | b :: r' =>
          if (a =? chr_underscore) && (b =? chr_underscore)
          then chr_underscore :: replace_dunder r'
          else a :: replace_dunder r
      | [] => [a]
      end
  end.

(** [while "__" in safe: safe = safe.replace("__", "_")]; every pass
    shortens the string, so [length safe] passes are enough
    ([collapse_dunder_done]). *)
Fixpoint collapse_dunder_loop (fuel : nat) (safe : Str) : Str :=
  match fuel with
  | O => safe
  | S fuel' =>
      if has_dunder safe then collapse_dunder_loop fuel' (replace_dunder safe)
      else safe
  end.

Definition collapse_dunder (safe : Str) : Str :=
  collapse_dunder_loop (length safe) safe.

Section FolderName.
(** [str.isalnum] on the code points from U+0080 on. *)
Variable uni_alnum : N -> bool.

Definition isalnum (c : N) : bool :=
  if c <? 128 then ascii_alnum c else uni_alnum c.

(** [ch.isalnum() or ch in {"-", "_", ".", " "}] *)
Definition keeps (ch : N) : bool :=
  isalnum ch || (ch =? chr_dash) || (ch =? chr_underscore)
  || (ch =? chr_dot) || (ch =? chr_space).

Definition sanitize_folder_name (name fallback : Str) : Str :=
  if is_empty name then fallback
  else
    let safe := List.map (fun ch => if keeps ch then ch else chr_underscore) name in
    let safe := collapse_dunder safe in
    let safe := strip dot_underscore (strip isspace safe) in
    str_or safe fallback.
End FolderName.

(** The part of the Unicode table used in the worked examples: letters
    and numbers of the Latin-1 supplement (U+0080 to U+00FF). *)
Definition latin1_alnum (c : N) : bool :=
  (c =? 170) || (c =? 178) || (c =? 179) || (c =? 181) || (c =? 185)
  || (c =? 186) || in_range 188 190 c || in_range 192 214 c
  || in_range 216 246 c || in_range 248 255 c.

(** ** Paths and the filesystem *)

Abbreviation Path := (list Str).

(** [base / name], for a [name] that is a single component. *)
Definition child (base : Path) (name : Str) : Path := base ++ [name].

(** [path.parent] *)
Definition parent (p : Path) : Path := removelast p.

(** What a file holds.  The texts the scripts write are kept symbolic:
    which document it is, for which source file, and the generated text
    it embeds, if any. *)
Inductive Content :=
| Data (bytes : Str)
| ReadmeText (source : Path) (ai : option Str)
| MetadataJson (source : Path) (used_ai : bool).

Inductive Node :=
| Dir
| File (content : Content).

Abbreviation FS := (gmap Path Node).

(** The empty path is the root of the tree and always a directory. *)
Definition node (fs : FS) (p : Path) : option Node :=
  if is_empty p then Some Dir else fs !! p.

Definition path_exists (fs : FS) (p : Path) : bool :=
  match node fs p with Some _ => true | None => false end.

Definition is_dir (fs : FS) (p : Path) : bool :=
  match node fs p with Some Dir => true | _ => false end.

Definition is_file (fs : FS) (p : Path) : bool :=
  match node fs p with Some (File _) => true | _ => false end.

(** The lines the two organizers print or log, by kind. *)
Inductive Msg :=
(* generate_folders.py *)
| ErrInputDir (input_dir : Path)
| Banner
| WouldCopy (src dst : Path)
| WarnNoKey (file : Path)
| WouldWriteReadme (target_dir : Path)
| WouldWriteMetadata (subfolder : Path)
| NoFiles
| Done
(* organize_with_gemini.py *)
| ErrSourceDir (src : Path)
| LogHeader
| LogNoKey
| DebugSkipInclude (file : Path)
| DebugSkipExclude (file : Path)
| LogSkipExistingFolder (dest_dir : Path)
| LogPreparing (dest_dir : Path)
| LogAction (src dst : Path) (moving : bool)
| LogReadmeExists (readme_path : Path)
| DebugGenerating (file : Path)
| LogWritingReadme (readme_path : Path)
| LogSummary (processed ai_generated : nat)
(* the interpreter, for an exception nobody caught *)
| Traceback.

(** The argument of [SystemExit]: a status, or a message for stderr. *)
Inductive ExitArg :=
| ExitCode (n : Z)
| ExitMessage (msg : Msg).

(** The exceptions of the model.  [LoopBound] is not a Python exception:
    it stands for a loop stopped by its bound, which does not happen. *)
Inductive Exn :=
| FileExistsError
| FileNotFoundError
| NotADirectoryError
| IsADirectoryError
| SameFileError
| ShutilError
| SystemExit (arg : ExitArg)
| LoopBound.

Inductive Res (A : Type) :=
| Ok (a : A)
| Raise (e : Exn).
Arguments Ok {A} a.
Arguments Raise {A} e.

(** [os.mkdir(p)] *)
Definition os_mkdir (p : Path) (fs : FS) : Res FS :=
  match node fs p with
  | Some _ => Raise FileExistsError
  | None =>
      match node fs (parent p) with
      | Some Dir => Ok (<[p := Dir]> fs)
      | Some (File _) => Raise NotADirectoryError
      | None => Raise FileNotFoundError
      end
  end.

(** [p.mkdir(parents=False, exist_ok=True)] *)
Definition mkdir_exist_ok (p : Path) (fs : FS) : Res FS :=
  match os_mkdir p fs with
  | Ok fs' => Ok fs'
  | Raise FileNotFoundError => Raise FileNotFoundError
  | Raise e => if is_dir fs p then Ok fs else Raise e
  end.

(** [p.mkdir(parents=True, exist_ok=True)], by recursion on the
    components of [p] read from the leaf: when the parent is missing it
    is made first and the directory itself is then made again. *)
Fixpoint mkdir_parents (rp : list Str) (fs : FS) : Res FS :=
  match os_mkdir (rev rp) fs with
  | Ok fs' => Ok fs'
  | Raise FileNotFoundError =>
      match rp with
      | [] => Raise FileNotFoundError
      | _ :: rparent =>
          match mkdir_parents rparent fs with
          | Ok fs' => mkdir_exist_ok (rev rp) fs'
          | Raise e => Raise e
          end
      end
  | Raise e => if is_dir fs (rev rp) then Ok fs else Raise e
  end.

(** ** Effects: the filesystem and what is printed or logged *)

Record World := { fs : FS; out : list Msg }.

Definition M (A : Type) : Type := World -> Res A * World.

Definition ret {A} (a : A) : M A := fun w => (Ok a, w).

Definition bind {A B} (m : M A) (k : A -> M B) : M B :=
  fun w => match m w with
           | (Ok a, w') => k a w'
           | (Raise e, w') => (Raise e, w')
           end.

Definition raise {A} (e : Exn) : M A := fun w => (Raise e, w).

Notation "'do' x <- m ; k" := (bind m (fun x => k))
  (at level 10, x name, m at level 100, k at level 200).
Notation "'run' m ; k" := (bind m (fun _ => k))
  (at level 10, m at level 100, k at level 200).

Definition emit (m : Msg) : M unit :=
  fun w => (Ok tt, {| fs := fs w; out := out w ++ [m] |}).

Definition ask_fs : M FS := fun w => (Ok (fs w), w).

(** Runs a filesystem operation; when it raises nothing is changed. *)
Definition update_fs (op : FS -> Res FS) : M unit :=
  fun w => match op (fs w) with
           | Ok fs' => (Ok tt, {| fs := fs'; out := out w |})
           | Raise e => (Raise e, w)
           end.

Definition when (b : bool) (m : M unit) : M unit := if b then m else ret tt.

(** [for x in xs: body(x)] *)
Fixpoint for_each {A} (xs : list A) (body : A -> M unit) : M unit :=
  match xs with
  | [] => ret tt
  | x :: xs' => run body x; for_each xs' body
  end.

(** generate_folders.py: [ensure_directory] *)
Definition ensure_directory (path : Path) : M unit :=
  update_fs (mkdir_parents (rev path)).

(** ** generate_folders.py: [create_unique_subfolder] *)

(** [f"{desired}-{index}"] *)
Definition dash_name (desired : Str) (index : nat) : Str :=
  desired ++ chr_dash :: str_of_nat index.

(** The [while candidate.exists()] loop.  [fuel] bounds the number of
    tests; [None] means the bound was reached. *)
Fixpoint subfolder_loop (fuel : nat) (fs : FS) (base : Path) (desired : Str)
    (candidate : Path) (index : nat) : option Path :=
  match fuel with
  | O => None
  | S fuel' =>
      if path_exists fs candidate
      then subfolder_loop fuel' fs base desired
             (child base (dash_name desired index)) (S index)
      else Some candidate
  end.

(** The loop tests at most one more path than the filesystem holds
    ([create_unique_subfolder_least]), so [LoopBound] is never raised. *)
Definition create_unique_subfolder (base_output_dir : Path) (desired_name : Str)
    : M Path :=
  let desired := sanitize_for_dir_name desired_name in
  do fs <- ask_fs;
  match subfolder_loop (S (size fs)) fs base_output_dir desired
          (child base_output_dir desired) 2 with
  | None => raise LoopBound
  | Some candidate => run ensure_directory candidate; ret candidate
  end.

(** ** organize_with_gemini.py: [ensure_unique_path] *)

(** [f"{desired_name}_{suffix}"] *)
Definition underscore_name (desired_name : Str) (suffix : nat) : Str :=
  desired_name ++ chr_underscore :: str_of_nat suffix.

(** The [while True] loop, with the same bound. *)
Fixpoint unique_path_loop (fuel : nat) (fs : FS) (base_dir : Path)
    (desired_name : Str) (suffix : nat) : option Path :=
  match fuel with
  | O => None
  | S fuel' =>
      let alt := child base_dir (underscore_name desired_name suffix) in
      if negb (path_exists fs alt) then Some alt
      else unique_path_loop fuel' fs base_dir desired_name (S suffix)
  end.

Definition ensure_unique_path (base_dir : Path) (desired_name : Str) : M Path :=
  do fs <- ask_fs;
  let candidate := child base_dir desired_name in
  if negb (path_exists fs candidate) then ret candidate
  else
    match unique_path_loop (S (size fs)) fs base_dir desired_name 1 with
    | None => raise LoopBound
    | Some alt => ret alt
    end.

(** The destination root is a directory, or [mkdir] with [parents=True]
    can make it one. *)
Definition root_available (fs : FS) (base : Path) : bool :=
  match mkdir_parents (rev base) fs with
  | Ok _ => true
  | Raise _ => false
  end.

(** The paths [create_unique_subfolder] tries, in order:
    [desired], [desired-2], [desired-3], ... *)
Definition nth_subfolder (base : Path) (desired : Str) (m : nat) : Path :=
  match m with
  | O => child base desired
  | S _ => child base (dash_name desired (S m))
  end.

(** The paths [ensure_unique_path] tries, in order:
    [desired], [desired_1], [desired_2], ... *)
Definition nth_unique_path (base : Path) (desired : Str) (m : nat) : Path :=
  match m with
  | O => child base desired
  | S _ => child base (underscore_name desired m)
  end.

(** [n] allocations in a row against the same root. *)
Fixpoint allocations (allocate : M Path) (n : nat) : M (list Path) :=
  match n with
  | O => ret []
  | S n' => do p <- allocate; do ps <- allocations allocate n'; ret (p :: ps)
  end.

(** ** pathlib: [name], [suffix], [stem]; directory listings *)

(** [p.name] *)
Definition name_of (p : Path) : Str := List.last p [].

(** [name.rfind('.')], [None] for [-1]. *)
Fixpoint rfind_dot_from (i : nat) (found : option nat) (s : Str) : option nat :=
  match s with
  | [] => found
  | c :: r => rfind_dot_from (S i) (if c =? chr_dot then Some i else found) r
  end.

Definition rfind_dot (name : Str) : option nat := rfind_dot_from 0 None name.

(** The place where [suffix] and [stem] cut the name: the last dot when
    [0 < i < len(name) - 1] (CPython up to 3.13). *)
Definition suffix_cut (name : Str) : option nat :=
  match rfind_dot name with
  | Some i =>
      if (0 <? i)%nat && (i <? length name - 1)%nat then Some i else None
  | None => None
  end.

(** [p.suffix] *)
Definition suffix (p : Path) : Str :=
  match suffix_cut (name_of p) with
  | Some i => drop i (name_of p)
  | None => []
  end.

(** [p.stem] *)
Definition stem (p : Path) : Str :=
  match suffix_cut (name_of p) with
  | Some i => take i (name_of p)
  | None => name_of p
  end.

(** Whether [p] lies strictly below [d]. *)
Fixpoint is_under (d p : Path) : bool :=
  match d, p with
  | [], _ :: _ => true
  | c :: d', c' :: p' => bool_decide (c = c') && is_under d' p'
  | _, _ => false
  end.

(** The entries of the tree, in the order the map enumerates them (the
    scripts do not rely on the order of a listing). *)
Definition entries (fs : FS) : list Path := (map_to_list fs).*1.

(** [d.iterdir()], consumed at once. *)
Definition iterdir (d : Path) (fs : FS) : Res (list Path) :=
  match node fs d with
  | Some Dir =>
      Ok (List.filter (fun p => negb (is_empty p) && bool_decide (parent p = d))
            (entries fs))
  | Some (File _) => Raise NotADirectoryError
  | None => Raise FileNotFoundError
  end.

(** [d.rglob("*")], consumed at once. *)
Definition rglob (d : Path) (fs : FS) : list Path :=
  List.filter (is_under d) (entries fs).

(** [[p for p in d.iterdir() if p.is_file()]] *)
Definition iterdir_files (d : Path) : M (list Path) :=
  fun w =>
    match iterdir d (fs w) with
    | Ok ps => (Ok (List.filter (is_file (fs w)) ps), w)
    | Raise e => (Raise e, w)
    end.

(** [[p for p in d.rglob("*") if p.is_file()]] *)
Definition rglob_files (d : Path) : M (list Path) :=
  fun w => (Ok (List.filter (is_file (fs w)) (rglob d (fs w))), w).

(** ** shutil and file writes *)

(** Creating or replacing the regular file [p]. *)
Definition write_file (p : Path) (c : Content) (fs : FS) : Res FS :=
  match node fs (parent p) with
  | Some Dir =>
      match node fs p with
      | Some Dir => Raise IsADirectoryError
      | _ => Ok (<[p := File c]> fs)
      end
  | Some (File _) => Raise NotADirectoryError
  | None => Raise FileNotFoundError
  end.

(** The destination [shutil.copy2] and [shutil.move] write to: inside
    [dst] when [dst] is a directory. *)
Definition into (fs : FS) (src dst : Path) : Path :=
  if is_dir fs dst then child dst (name_of src) else dst.

(** [shutil.copy2(src, dst)] for a regular file. *)
Definition copy2 (src dst : Path) (fs : FS) : Res FS :=
  match node fs src with
  | Some (File c) =>
      if bool_decide (into fs src dst = src) then Raise SameFileError
      else write_file (into fs src dst) c fs
  | Some Dir => Raise IsADirectoryError
  | None => Raise FileNotFoundError
  end.

(** [shutil.move(src, dst)] for a regular file (the scripts move nothing
    else): refused when [dst] is a directory that already holds the
    name, else a rename. *)
Definition move (src dst : Path) (fs : FS) : Res FS :=
  if is_dir fs dst && path_exists fs (child dst (name_of src))
  then Raise ShutilError
  else
    match node fs src with
    | Some (File c) =>
        if bool_decide (into fs src dst = src) then Ok fs
        else match write_file (into fs src dst) c fs with
             | Ok fs' => Ok (delete src fs')
             | Raise e => Raise e
             end
    | Some Dir => Raise IsADirectoryError
    | None => Raise FileNotFoundError
    end.

(** Truth value of an optional string: [None] and [""] are false. *)
Definition truthy (o : option Str) : bool :=
  match o with
  | Some (_ :: _) => true
  | _ => false
  end.

Definition README_md : Str := py "README.md".
Definition metadata_json : Str := py "metadata.json".

(** ** generate_folders.py: selection and the per-file pipeline *)

Record Namespace := {
  input_dir : Path;
  output_dir : Path;
  recursive : bool;
  include_ext : option (list Str);
  exclude_ext : option (list Str);
  copy_original : bool;
  use_ai : bool;
  model : Str;
  api_key : option Str;
  max_bytes : N;
  dry_run : bool
}.

Section GenerateFolders.
(** [str.lower] *)
Variable lower : Str -> Str.
(** The value of the environment variable [GOOGLE_API_KEY]. *)
Variable env_google_api_key : option Str.
(** The external text generator behind [generate_ai_markdown], which
    catches every exception itself: the text it returns for a file of
    the current tree, if any. *)
Variable generate_ai_markdown : FS -> Path -> Str -> Str -> option Str.

(** [iter_files], consumed at once. *)
Definition iter_files (input_dir : Path) (recursive : bool) : M (list Path) :=
  if recursive then rglob_files input_dir else iterdir_files input_dir.

(** The [for f in files] loop of [filter_files]. *)
Fixpoint filter_files_loop (files : list Path)
    (include_set : option (gset Str)) (exclude_set : gset Str) : list Path :=
  match files with
  | [] => []
  | f :: files' =>
      let ext := lower (suffix f) in
      let result := filter_files_loop files' include_set exclude_set in
      if match include_set with
         | Some inc => negb (bool_decide (ext ∈ inc))
         | None => false
         end
      then result
      else if bool_decide (ext ∈ exclude_set) then result
      else f :: result
  end.

Definition filter_files (files : list Path)
    (include_ext exclude_ext : option (list Str)) : list Path :=
  let include_set :=
    match include_ext with
    | Some ((_ :: _) as exts) => Some (list_to_set (List.map lower exts))
    | _ => None
    end in
  let exclude_set :=
    match exclude_ext with
    | Some ((_ :: _) as exts) => list_to_set (List.map lower exts)
    | _ => ∅
    end in
  filter_files_loop files include_set exclude_set.

(** [cli_key or os.environ.get("GOOGLE_API_KEY")] *)
Definition get_api_key (cli_key : option Str) : option Str :=
  if truthy cli_key then cli_key else env_google_api_key.

Definition write_readme (target_dir file_path : Path)
    (ai_markdown : option Str) (dry_run : bool) : M unit :=
  do fs <- ask_fs;
  (* file_path.stat() *)
  if negb (path_exists fs file_path) then raise FileNotFoundError
  else if dry_run then emit (WouldWriteReadme target_dir)
  else update_fs (write_file (child target_dir README_md)
                    (ReadmeText file_path
                       (if truthy ai_markdown then ai_markdown else None))).

Definition process_file (file_path output_dir : Path) (copy_original use_ai : bool)
    (model_name : Str) (api_key : option Str) (max_bytes : N) (dry_run : bool)
    : M unit :=
  do subfolder <- create_unique_subfolder output_dir (stem file_path);
  run when copy_original
        (if dry_run
         then emit (WouldCopy file_path (child subfolder (name_of file_path)))
         else update_fs (copy2 file_path (child subfolder (name_of file_path))));
  do ai_markdown <-
    (if use_ai then
       match api_key with
       | Some ((_ :: _) as key) =>
           do fs <- ask_fs; ret (generate_ai_markdown fs file_path model_name key)
       | _ => run emit (WarnNoKey file_path); ret None
       end
     else ret None);
  run write_readme subfolder file_path ai_markdown dry_run;
  if dry_run then emit (WouldWriteMetadata subfolder)
  else update_fs (write_file (child subfolder metadata_json)
                    (MetadataJson file_path (truthy ai_markdown))).

(** [main] of generate_folders.py, after [parse_args]. *)
Definition generate_main (args : Namespace) : M Z :=
  let api_key := get_api_key (api_key args) in
  do fs <- ask_fs;
  if negb (path_exists fs (input_dir args)) || negb (is_dir fs (input_dir args))
  then run emit (ErrInputDir (input_dir args)); ret 2%Z
  else
    run emit Banner;
    run when (negb (dry_run args)) (ensure_directory (output_dir args));
    do files_iter <- iter_files (input_dir args) (recursive args);
    let files := filter_files files_iter (include_ext args) (exclude_ext args) in
    if is_empty files then run emit NoFiles; ret 0%Z
    else
      run for_each files (fun f =>
            process_file f (output_dir args) (copy_original args) (use_ai args)
              (model args) api_key (max_bytes args) (dry_run args));
      run emit Done;
      ret 0%Z.
End GenerateFolders.

(** ** organize_with_gemini.py: selection and the per-file pipeline *)

(** Lexicographic order on code points, the order of [str]. *)
Fixpoint str_ltb (a b : Str) : bool :=
  match a, b with
  | [], _ :: _ => true
  | x :: a', y :: b' => (x <? y) || ((x =? y) && str_ltb a' b')
  | _, _ => false
  end.

(** [list.sort(key=...)]: a stable sort, here by insertion from the right. *)
Fixpoint insert_by_key (key : Path -> Str) (p : Path) (sorted : list Path) : list Path :=
  match sorted with
  | [] => [p]
  | q :: sorted' =>
      if str_ltb (key q) (key p) then q :: insert_by_key key p sorted'
      else p :: sorted
  end.

Definition sort_by_key (key : Path -> Str) (l : list Path) : list Path :=
  List.fold_right (insert_by_key key) [] l.

(** [value.split(',')] *)
Fixpoint split_comma (value : Str) : list Str :=
  match value with
  | [] => [[]]
  | c :: r =>
      if c =? 44 then [] :: split_comma r
      else match split_comma r with
           | h :: t => (c :: h) :: t
           | [] => [[c]]
           end
  end.

Definition parse_ext_list (value : option Str) : option (list Str) :=
  match value with
  | Some ((_ :: _) as v) =>
      let parts := List.map (strip isspace) (split_comma v) in
      Some (List.filter (fun p => negb (is_empty p)) parts)
  | _ => None
  end.

(** Truth value of an optional list: [None] and [[]] are false. *)
Definition nonempty_list {A} (o : option (list A)) : bool :=
  match o with
  | Some (_ :: _) => true
  | _ => false
  end.

(** [ext in exts] for a list that is present. *)
Definition ext_in (ext : Str) (exts : option (list Str)) : bool :=
  match exts with
  | Some l => bool_decide (ext ∈ l)
  | None => false
  end.

(** The command line of organize_with_gemini.py. *)
Record Argv := {
  arg_source_dir : Path;
  arg_output_dir : option Path;
  arg_move : bool;
  arg_include_ext : option Str;
  arg_exclude_ext : option Str;
  arg_readme_filename : Str;
  arg_model : Str;
  arg_skip_ai : bool;
  arg_overwrite : bool;
  arg_dry_run : bool;
  arg_verbose : bool
}.

Section OrganizeWithGemini.
Variable uni_alnum : N -> bool.
Variable lower : Str -> Str.
Variable env_google_api_key : option Str.
(** The external text generator behind [generate_readme_with_gemini],
    which catches every exception itself: the text it returns for a
    file of the current tree ([""] when it fails). *)
Variable generate_readme_with_gemini : FS -> Path -> Str -> Str -> Str.

(** The body of the loop of [normalize_exts]: [None] when the entry is
    passed over. *)
Definition normalize_ext (ext : Str) : option Str :=
  if is_empty ext then None
  else
    let e := lower (strip isspace ext) in
    if is_empty e then None
    else Some (if starts_with [chr_dot] e then e else chr_dot :: e).

Definition normalize_exts (exts : option (list Str)) : option (list Str) :=
  match exts with
  | None => None
  | Some exts =>
      let normalized := omap normalize_ext exts in
      if is_empty normalized then None else Some normalized
  end.

Definition resolve_api_key : option Str := env_google_api_key.

(** The body of the [for file_path in files] loop; [counts] is
    [(processed, ai_generated)], unchanged by [continue]. *)
Definition process_one (output_dir : Path) (include_exts exclude_exts : option (list Str))
    (move_files do_ai : bool) (api_key : option Str) (model_name readme_filename : Str)
    (overwrite dry_run : bool) (file_path : Path) (counts : nat * nat)
    : M (nat * nat) :=
  let ext := lower (suffix file_path) in
  if nonempty_list include_exts && negb (ext_in ext include_exts)
  then run emit (DebugSkipInclude file_path); ret counts
  else if nonempty_list exclude_exts && ext_in ext exclude_exts
  then run emit (DebugSkipExclude file_path); ret counts
  else
    let folder_name :=
      sanitize_folder_name uni_alnum (str_or (stem file_path) (name_of file_path)) item in
    do dest_dir <- ensure_unique_path output_dir folder_name;
    do fs0 <- ask_fs;
    if path_exists fs0 dest_dir && negb overwrite
    then run emit (LogSkipExistingFolder dest_dir); ret counts
    else
      run emit (LogPreparing dest_dir);
      run when (negb dry_run) (update_fs (mkdir_parents (rev dest_dir)));
      let dest_file := child dest_dir (name_of file_path) in
      run emit (LogAction file_path dest_file move_files);
      run when (negb dry_run)
            (update_fs (if move_files then move file_path dest_file
                        else copy2 file_path dest_file));
      let readme_path := child dest_dir readme_filename in
      do fs1 <- ask_fs;
      do generated <-
        (if path_exists fs1 readme_path && negb overwrite
         then run emit (LogReadmeExists readme_path); ret 0%nat
         else
           do written <-
             (match api_key with
              | Some ((_ :: _) as key) =>
                  if do_ai then
                    run emit (DebugGenerating file_path);
                    let content := generate_readme_with_gemini fs1 file_path model_name key in
                    if is_empty (strip isspace content)
                    then ret (ReadmeText file_path None, 0%nat)
                    else ret (ReadmeText file_path (Some content), 1%nat)
                  else ret (ReadmeText file_path None, 0%nat)
              | _ => ret (ReadmeText file_path None, 0%nat)
              end);
           run emit (LogWritingReadme readme_path);
           run when (negb dry_run) (update_fs (write_file readme_path written.1));
           ret written.2);
      ret (S counts.1, (counts.2 + generated)%nat).

(** [for file_path in files], threading the two counters. *)
Fixpoint process_loop (body : Path -> nat * nat -> M (nat * nat))
    (files : list Path) (counts : nat * nat) : M (nat * nat) :=
  match files with
  | [] => ret counts
  | file_path :: files' =>
      do counts' <- body file_path counts; process_loop body files' counts'
  end.

Definition process_files (source_dir output_dir : Path)
    (include_exts exclude_exts : option (list Str)) (move_files do_ai : bool)
    (model_name readme_filename : Str) (overwrite dry_run : bool)
    : M (nat * nat) :=
  let include_exts := normalize_exts include_exts in
  let exclude_exts := normalize_exts exclude_exts in
  do listed <- iterdir_files source_dir;
  let files := sort_by_key (fun p => lower (name_of p)) listed in
  let api_key := if do_ai then resolve_api_key else None in
  do do_ai <- (if do_ai && negb (truthy api_key)
               then run emit LogNoKey; ret false
               else ret do_ai);
  process_loop
    (process_one output_dir include_exts exclude_exts move_files do_ai api_key
       model_name readme_filename overwrite dry_run)
    files (0%nat, 0%nat).

(** [parse_args], after [argparse]: the checks and defaults it applies
    to paths that are already absolute. *)
Definition parse_args (argv : Argv) : M Argv :=
  let src := arg_source_dir argv in
  do fs <- ask_fs;
  if negb (path_exists fs src) || negb (is_dir fs src)
  then raise (SystemExit (ExitMessage (ErrSourceDir src)))
  else
    ret {| arg_source_dir := src;
           arg_output_dir :=
             Some (match arg_output_dir argv with
                   | Some ((_ :: _) as o) => o
                   | _ => child (parent src) (name_of src ++ py "_organized")
                   end);
           arg_move := arg_move argv;
           arg_include_ext := arg_include_ext argv;
           arg_exclude_ext := arg_exclude_ext argv;
           arg_readme_filename := arg_readme_filename argv;
           arg_model := arg_model argv;
           arg_skip_ai := arg_skip_ai argv;
           arg_overwrite := arg_overwrite argv;
           arg_dry_run := arg_dry_run argv;
           arg_verbose := arg_verbose argv |}.

(** [main] of organize_with_gemini.py.  [parse_ext_list], which
    [parse_args] applies to the two extension flags, is applied here
    where they are passed on. *)
Definition organize_main (argv : Argv) : M Z :=
  do args <- parse_args argv;
  run emit LogHeader;
  do counts <-
    process_files (arg_source_dir args) (default [] (arg_output_dir args))
      (parse_ext_list (arg_include_ext args)) (parse_ext_list (arg_exclude_ext args))
      (arg_move args) (negb (arg_skip_ai args)) (arg_model args)
      (arg_readme_filename args) (arg_overwrite args) (arg_dry_run args);
  run emit (LogSummary counts.1 counts.2);
  ret 0%Z.

(** The allocation of [process_files] outside a dry run:
    [ensure_unique_path] and the [dest_dir.mkdir] that follows it. *)
Definition allocate_folder (output_dir : Path) (folder_name : Str) : M Path :=
  do dest_dir <- ensure_unique_path output_dir folder_name;
  run update_fs (mkdir_parents (rev dest_dir));
  ret dest_dir.
End OrganizeWithGemini.

(** [raise SystemExit(main())] and what the interpreter makes of it: the
    exit status of the process, a message or a traceback on the way. *)
Definition script (main : M Z) (w : World) : Z * World :=
  match main w with
  | (Ok status, w') => (status, w')
  | (Raise (SystemExit (ExitCode status)), w') => (status, w')
  | (Raise (SystemExit (ExitMessage msg)), w') =>
      (1%Z, {| fs := fs w'; out := out w' ++ [msg] |})
  | (Raise _, w') => (1%Z, {| fs := fs w'; out := out w' ++ [Traceback] |})
  end.

(** [str.lower] on strings of ASCII characters, for the worked examples. *)
Definition ascii_lower (s : Str) : Str :=
  List.map (fun c => if in_range 65 90 c then c + 32 else c) s.

(** ** groups_file.py: [send_file] *)

(** The exceptions the body of [send_file] can meet, all of them
    subclasses of [Exception]. *)
Inductive SendExn :=
| AsyncioTimeoutError
| TelegramError (text : Str)
| SendFileNotFoundError
| OtherException.

(** What the outside world answers to the three calls of [send_file]:
    [os.path.getsize], [open] and the awaited [bot.send_document]. *)
Record Remote := {
  getsize : SendExn + N;
  open_rb : option SendExn;
  send_document : option SendExn
}.

Inductive SendEvent :=
| PrintTooLarge (file_size : N)
| PrintSending (file_size : N)
| OpenFile
| SendDocument
| PrintSent
| PrintTimedOut
| PrintChatNotFound
| PrintTooLargeForTelegram
| PrintTelegramError (text : Str)
| PrintFileNotFound
| PrintUnexpected.

Definition max_size : N := 50 * 1024 * 1024.

(** The [except] clauses, in their order. *)
Definition send_file_except (e : SendExn) : SendEvent :=
  match e with
  | AsyncioTimeoutError => PrintTimedOut
  | TelegramError text =>
      if contains (py "Chat not found") text then PrintChatNotFound
      else if contains (py "Request Entity Too Large") text then PrintTooLargeForTelegram
      else if contains (py "Timed out") text then PrintTimedOut
      else PrintTelegramError text
  | SendFileNotFoundError => PrintFileNotFound
  | OtherException => PrintUnexpected
  end.

(** [send_file]: the value returned and what was done, in order. *)
Definition send_file (remote : Remote) : bool * list SendEvent :=
  match getsize remote with
  | inl e => (false, [send_file_except e])
  | inr file_size =>
      if max_size <? file_size then (false, [PrintTooLarge file_size])
      else
        match open_rb remote with
        | Some e => (false, [PrintSending file_size; send_file_except e])
        | None =>
            match send_document remote with
            | Some e =>
                (false, [PrintSending file_size; OpenFile; SendDocument;
                         send_file_except e])
            | None =>
                (true, [PrintSending file_size; OpenFile; SendDocument; PrintSent])
            end
        end
  end.

(** The reasons of the specification. *)
Inductive Reason := TooLarge | NotFound | TimedOut | Other.

(** The reason a printed line reports; [None] for the two lines that
    report progress. *)
Definition reason_of (e : SendEvent) : option Reason :=
  match e with
  | PrintTooLarge _ | PrintTooLargeForTelegram => Some TooLarge
  | PrintChatNotFound | PrintFileNotFound => Some NotFound
  | PrintTimedOut => Some TimedOut
  | PrintTelegramError _ | PrintUnexpected => Some Other
  | PrintSending _ | OpenFile | SendDocument | PrintSent => None
  end.

(** ** groups_file.py: [send_file_to_chat] *)

(** One path [glob.glob] found: what [os.path.isfile] says of it and
    what the outside world answers when it is sent. *)
Record Found := {
  found_path : Str;
  found_isfile : bool;
  found_remote : Remote
}.

Inductive ChatEvent :=
| PrintFoundFiles (files : list Str)
| PrintChatVerified (title : option Str)
| PrintCannotAccess (text : Str)
| PrintCannotProceed
| PrintAdviceAddBot
| PrintAdviceChatId
| PrintAdvicePermission
| PrintNoZipFiles
| Sending (file_path : Str) (events : list SendEvent)
| PrintNotAFile (file_path : Str)
| PrintSummaryTitle
| PrintSuccessfullySent (successful : nat)
| PrintFailedToSend (failed : nat).

(** [verify_chat_access]: only a [TelegramError] of [bot.get_chat] is
    caught. *)
Definition verify_chat_access (get_chat : SendExn + option Str)
    : SendExn + (bool * list ChatEvent) :=
  match get_chat with
  | inr title => inr (true, [PrintChatVerified title])
  | inl (TelegramError text) => inr (false, [PrintCannotAccess text])
  | inl e => inl e
  end.

(** The [for file_path in files] loop, on its two counters. *)
Fixpoint send_loop (files : list Found) (successful failed : nat)
    : list ChatEvent * (nat * nat) :=
  match files with
  | [] => ([], (successful, failed))
  | f :: files' =>
      if found_isfile f then
        let sent := send_file (found_remote f) in
        let rest :=
          if sent.1 then send_loop files' (S successful) failed
          else send_loop files' successful (S failed) in
        (Sending (found_path f) sent.2 :: rest.1, rest.2)
      else
        let rest := send_loop files' successful (S failed) in
        (PrintNotAFile (found_path f) :: rest.1, rest.2)
  end.

(** [send_file_to_chat]: what is printed and sent, in order, or the
    exception that leaves it. *)
Definition send_file_to_chat (files : list Found) (get_chat : SendExn + option Str)
    : SendExn + list ChatEvent :=
  let found := PrintFoundFiles (List.map found_path files) in
  match verify_chat_access get_chat with
  | inl e => inl e
  | inr (false, printed) =>
      inr (found :: printed ++ [PrintCannotProceed; PrintAdviceAddBot;
                                PrintAdviceChatId; PrintAdvicePermission])
  | inr (true, printed) =>
      if is_empty files then inr (found :: printed ++ [PrintNoZipFiles])
      else
        let sent := send_loop files 0 0 in
        inr (found :: printed ++ sent.1
             ++ [PrintSummaryTitle; PrintSuccessfullySent sent.2.1;
                 PrintFailedToSend sent.2.2])
  end.

(** ** groups_file.py and join_group.py: what the Bot API hands over *)

Inductive ChatType := SENDER | PRIVATE | GROUP | SUPERGROUP | CHANNEL.

(** [chat.type.name] *)
Definition type_name (t : ChatType) : Str :=
  match t with
  | SENDER => py "SENDER"
  | PRIVATE => py "PRIVATE"
  | GROUP => py "GROUP"
  | SUPERGROUP => py "SUPERGROUP"
  | CHANNEL => py "CHANNEL"
  end.

(** [chat.type in [ChatType.GROUP, ChatType.SUPERGROUP, ChatType.CHANNEL]] *)
Definition is_group_type (t : ChatType) : bool :=
  match t with
  | GROUP | SUPERGROUP | CHANNEL => true
  | SENDER | PRIVATE => false
  end.

(** A chat.  [chat_description] and [chat_member_count] are read with
    [getattr] and a default: [None] here says that the object has no
    such attribute. *)
Record Chat := {
  chat_id : Z;
  chat_title : option Str;
  chat_type : ChatType;
  chat_username : option Str;
  chat_description : option (option Str);
  chat_member_count : option (option Z)
}.

Record User := {
  user_id : Z;
  user_username : option Str;
  user_first_name : Str
}.

Record Document := {
  document_file_id : Str;
  document_file_name : option Str;
  document_file_size : option Z;
  document_mime_type : option Str
}.

Record PhotoSize := {
  photo_file_id : Str;
  photo_file_size : option Z;
  photo_width : Z;
  photo_height : Z
}.

Record Video := {
  video_file_id : Str;
  video_file_name : option Str;
  video_file_size : option Z;
  video_duration : Z;
  video_width : Z;
  video_height : Z
}.

Record Audio := {
  audio_file_id : Str;
  audio_file_name : option Str;
  audio_file_size : option Z;
  audio_duration : Z;
  audio_performer : option Str;
  audio_title : option Str
}.

Record Voice := {
  voice_file_id : Str;
  voice_file_size : option Z;
  voice_duration : Z
}.

Record VideoNote := {
  video_note_file_id : Str;
  video_note_file_size : option Z;
  video_note_duration : Z;
  video_note_length : Z
}.

(** A message; [date] is in seconds, [photo] the sizes of one picture,
    empty when there is none. *)
Record Message := {
  message_id : Z;
  date : option Z;
  from_user : option User;
  caption : option Str;
  chat : Chat;
  document : option Document;
  photo : list PhotoSize;
  video : option Video;
  audio : option Audio;
  voice : option Voice;
  video_note : option VideoNote
}.

Record Update := { message : option Message }.

(** The values the two collectors build and [json.dump] writes. *)
Local Unset Elimination Schemes.
Inductive Json :=
| JNone
| JInt (n : Z)
| JStr (s : Str)
| JDict (d : list (Str * Json)).
Local Set Elimination Schemes.

Definition jstr (o : option Str) : Json :=
  match o with Some s => JStr s | None => JNone end.

Definition jint (o : option Z) : Json :=
  match o with Some n => JInt n | None => JNone end.

(** [d[key]] of a dictionary literal. *)
Fixpoint dict_get (key : Str) (d : list (Str * Json)) : option Json :=
  match d with
  | [] => None
  | (k, v) :: d' => if bool_decide (k = key) then Some v else dict_get key d'
  end.

(** [d[key] = value] on a dictionary keyed by chat ids: a key that is
    there keeps its place. *)
Fixpoint dict_set {V} (key : Z) (value : V) (d : list (Z * V)) : list (Z * V) :=
  match d with
  | [] => [(key, value)]
  | (k, v) :: d' =>
      if bool_decide (k = key) then (key, value) :: d'
      else (k, v) :: dict_set key value d'
  end.

Fixpoint dict_lookup {V} (key : Z) (d : list (Z * V)) : option V :=
  match d with
  | [] => None
  | (k, v) :: d' => if bool_decide (k = key) then Some v else dict_lookup key d'
  end.

Inductive BotLog :=
| LogFoundGroups (n : nat)
| LogErrorGettingGroups (text : Str)
| LogFoundFiles (n : nat) (id : Z)
| LogErrorGettingFiles (id : Z) (text : Str)
| LogFoundRecentFiles (n : nat) (id : Z)
| LogErrorRecentFiles (id : Z) (text : Str)
| LogReadGroups (n : nat)
| LogGroupFileNotFound
| LogErrorReadingGroups.

(** ** groups_file.py: [get_all_groups] *)

Definition group_info (c : Chat) : Json :=
  JDict [(py "id", JInt (chat_id c));
         (py "title", jstr (chat_title c));
         (py "type", JStr (type_name (chat_type c)));
         (py "username", jstr (chat_username c));
         (py "description",
          match chat_description c with Some d => jstr d | None => JStr [] end);
         (py "member_count",
          match chat_member_count c with Some n => jint n | None => JInt 0 end)].

(** The [for update in updates] loop of [get_all_groups]. *)
Fixpoint groups_loop (updates : list Update) (groups : list (Z * Json))
    : list (Z * Json) :=
  match updates with
  | [] => groups
  | update :: updates' =>
      match message update with
      | Some m =>
          if is_group_type (chat_type (chat m))
          then groups_loop updates' (dict_set (chat_id (chat m)) (group_info (chat m)) groups)
          else groups_loop updates' groups
      | None => groups_loop updates' groups
      end
  end.

(** [get_all_groups], given what [bot.get_updates] answers: only a
    [TelegramError] is caught. *)
Definition get_all_groups (get_updates : SendExn + list Update)
    : SendExn + (list (Z * Json) * list BotLog) :=
  match get_updates with
  | inr updates =>
      let groups := groups_loop updates [] in
      inr (groups, [LogFoundGroups (length groups)])
  | inl (TelegramError text) => inr ([], [LogErrorGettingGroups text])
  | inl e => inl e
  end.

(** The chat of the last message of [updates] that came from a group,
    supergroup or channel with identifier [id]. *)
Fixpoint last_group (id : Z) (updates : list Update) : option Chat :=
  match updates with
  | [] => None
  | update :: updates' =>
      match last_group id updates' with
      | Some c => Some c
      | None =>
          match message update with
          | Some m =>
              if is_group_type (chat_type (chat m)) && bool_decide (chat_id (chat m) = id)
              then Some (chat m)
              else None
          | None => None
          end
      end
  end.

(** ** The files of a chat *)

(** Truth value of an optional object. *)
Definition truthy_obj {A} (o : option A) : bool :=
  match o with Some _ => true | None => false end.

(** [message.document or message.photo or ... or message.video_note] *)
Definition has_media (m : Message) : bool :=
  truthy_obj (document m) || negb (is_empty (photo m)) || truthy_obj (video m)
  || truthy_obj (audio m) || truthy_obj (voice m) || truthy_obj (video_note m).

Section Collectors.
(** [datetime.isoformat] *)
Variable isoformat : Z -> Str.

(** The part of [file_info] the two collectors share, around the
    dictionary [file]. *)
Definition file_info (m : Message) (file : list (Str * Json)) : Json :=
  JDict [(py "message_id", JInt (message_id m));
         (py "date", match date m with Some d => JStr (isoformat d) | None => JNone end);
         (py "from_user",
          match from_user m with
          | Some u => JDict [(py "id", JInt (user_id u));
                             (py "username", jstr (user_username u));
                             (py "first_name", JStr (user_first_name u))]
          | None => JNone
          end);
         (py "caption", jstr (caption m));
         (py "file", JDict file)].

Definition document_dict (d : Document) : list (Str * Json) :=
  [(py "type", JStr (py "document"));
   (py "file_id", JStr (document_file_id d));
   (py "file_name", jstr (document_file_name d));
   (py "file_size", jint (document_file_size d));
   (py "mime_type", jstr (document_mime_type d))].

(** From [message.photo[-1]]. *)
Definition photo_dict (p : PhotoSize) : list (Str * Json) :=
  [(py "type", JStr (py "photo"));
   (py "file_id", JStr (photo_file_id p));
   (py "file_size", jint (photo_file_size p));
   (py "width", JInt (photo_width p));
   (py "height", JInt (photo_height p))].

(** groups_file.py: the [if]/[elif] chain of [get_chat_files_from_updates]. *)
Definition chat_file (m : Message) : list (Str * Json) :=
  match document m, photo m, video m, audio m, voice m, video_note m with
  | Some d, _, _, _, _, _ => document_dict d
  | None, p :: ps, _, _, _, _ => photo_dict (List.last ps p)
  | None, [], Some v, _, _, _ =>
      [(py "type", JStr (py "video"));
       (py "file_id", JStr (video_file_id v));
       (py "file_name", jstr (video_file_name v));
       (py "file_size", jint (video_file_size v));
       (py "duration", JInt (video_duration v));
       (py "width", JInt (video_width v));
       (py "height", JInt (video_height v))]
  | None, [], None, Some a, _, _ =>
      [(py "type", JStr (py "audio"));
       (py "file_id", JStr (audio_file_id a));
       (py "file_name", jstr (audio_file_name a));
       (py "file_size", jint (audio_file_size a));
       (py "duration", JInt (audio_duration a));
       (py "performer", jstr (audio_performer a));
       (py "title", jstr (audio_title a))]
  | None, [], None, None, Some v, _ =>
      [(py "type", JStr (py "voice"));
       (py "file_id", JStr (voice_file_id v));
       (py "file_size", jint (voice_file_size v));
       (py "duration", JInt (voice_duration v))]
  | None, [], None, None, None, Some n =>
      [(py "type", JStr (py "video_note"));
       (py "file_id", JStr (video_note_file_id n));
       (py "file_size", jint (video_note_file_size n));
       (py "duration", JInt (video_note_duration n));
       (py "length", JInt (video_note_length n))]
  | None, [], None, None, None, None => []
  end.

(** join_group.py: the [if]/[elif] chain of [get_recent_files], which
    stops after [audio]. *)
Definition recent_file (m : Message) : list (Str * Json) :=
  match document m, photo m, video m, audio m with
  | Some d, _, _, _ => document_dict d
  | None, p :: ps, _, _ => photo_dict (List.last ps p)
  | None, [], Some v, _ =>
      [(py "type", JStr (py "video"));
       (py "file_id", JStr (video_file_id v));
       (py "file_name", jstr (video_file_name v));
       (py "file_size", jint (video_file_size v));
       (py "duration", JInt (video_duration v))]
  | None, [], None, Some a =>
      [(py "type", JStr (py "audio"));
       (py "file_id", JStr (audio_file_id a));
       (py "file_name", jstr (audio_file_name a));
       (py "file_size", jint (audio_file_size a));
       (py "duration", JInt (audio_duration a))]
  | None, [], None, None => []
  end.

(** The [for update in updates] loop of both collectors; [file] is the
    chain of the collector. *)
Fixpoint files_loop (file : Message -> list (Str * Json)) (id : Z)
    (updates : list Update) (files : list Json) : list Json :=
  match updates with
  | [] => files
  | update :: updates' =>
      match message update with
      | Some m =>
          if bool_decide (chat_id (chat m) = id) && has_media m
          then files_loop file id updates' (files ++ [file_info m (file m)])
          else files_loop file id updates' files
      | None => files_loop file id updates' files
      end
  end.

(** groups_file.py: [get_chat_files_from_updates] *)
Definition get_chat_files_from_updates (id : Z) (get_updates : SendExn + list Update)
    : SendExn + (list Json * list BotLog) :=
  match get_updates with
  | inr updates =>
      let files_data := files_loop chat_file id updates [] in
      inr (files_data, [LogFoundFiles (length files_data) id])
  | inl (TelegramError text) => inr ([], [LogErrorGettingFiles id text])
  | inl e => inl e
  end.

(** join_group.py: [get_recent_files] *)
Definition get_recent_files (id : Z) (get_updates : SendExn + list Update)
    : SendExn + (list Json * list BotLog) :=
  match get_updates with
  | inr updates =>
      let files := files_loop recent_file id updates [] in
      inr (files, [LogFoundRecentFiles (length files) id])
  | inl (TelegramError text) => inr ([], [LogErrorRecentFiles id text])
  | inl e => inl e
  end.
End Collectors.

(** The [type] of the [file] of an entry: [None] when [file] is [{}] or
    the entry is not one. *)
Definition file_type (entry : Json) : option Json :=
  match entry with
  | JDict d =>
      match dict_get (py "file") d with
      | Some (JDict file) => dict_get (py "type") file
      | _ => None
      end
  | _ => None
  end.

Definition media_types : list Str :=
  [py "document"; py "photo"; py "video"; py "audio"; py "voice"; py "video_note"].

(** The messages of [updates] that are of chat [id] and carry a file,
    in their order. *)
Definition media_messages (id : Z) (updates : list Update) : list Message :=
  omap (fun update =>
          match message update with
          | Some m =>
              if bool_decide (chat_id (chat m) = id) && has_media m
              then Some m else None
          | None => None
          end) updates.

(** ** join_group.py: [read_group_list] *)

(** What opening and reading the file gives: its lines, each with its
    end of line, or an exception on the way. *)
Inductive ReadLines :=
| Lines (lines : list Str)
| ReadFileNotFound
| ReadException.

(** The [for line in f] loop. *)
Fixpoint group_lines (lines : list Str) (groups : list Str) : list Str :=
  match lines with
  | [] => groups
  | line :: lines' =>
      let line := strip isspace line in
      if negb (is_empty line) && negb (starts_with (py "#") line)
      then group_lines lines' (groups ++ [line])
      else group_lines lines' groups
  end.

Definition read_group_list (file : ReadLines) : list Str * list BotLog :=
  match file with
  | Lines lines =>
      let groups := group_lines lines [] in
      (groups, [LogReadGroups (length groups)])
  | ReadFileNotFound => ([], [LogGroupFileNotFound])
  | ReadException => ([], [LogErrorReadingGroups])
  end.

(** ** Vocabulary of the statements *)


(** [m] relates every world it is run in to the world it leaves. *)
Definition preserves {A} (R : World -> World -> Prop) (m : M A) : Prop :=
  forall w, R w (m w).2.

(** Every value [m] returns satisfies [P]. *)
Definition returns {A} (P : A -> Prop) (m : M A) : Prop :=
  forall w a w', m w = (Ok a, w') -> P a.

(** The filesystem is left as it was. *)
Definition same_fs (w w' : World) : Prop := fs w' = fs w.

(** No directory is removed. *)
Definition keeps_dirs (w w' : World) : Prop :=
  forall q, is_dir (fs w) q = true -> is_dir (fs w') q = true.

(** No "Skipping existing folder" line is added to the log. *)
Definition no_new_skip (w w' : World) : Prop :=
  forall d, In (LogSkipExistingFolder d) (out w') -> In (LogSkipExistingFolder d) (out w).


(** One turn of the loop of [process_files], on its two counters: at most one more file processed, and a
    README counted as generated only for a file counted as processed,
    and only with the generator switched on and a key at hand. *)
Definition one_turn (do_ai : bool) (api_key : option Str) (before after : nat * nat)
    : Prop :=
  (before.1 <= after.1 <= S before.1)%nat
  /\ (before.2 <= after.2)%nat
  /\ (after.2 + before.1 <= before.2 + after.1)%nat
  /\ (do_ai = false \/ truthy api_key = false -> after.2 = before.2).

(** A supergroup and a voice message posted in it. *)
Definition chat_example : Chat :=
  {| chat_id := (-1002903482939)%Z; chat_title := Some (py "Files");
     chat_type := SUPERGROUP; chat_username := None;
     chat_description := None; chat_member_count := None |}.

Definition voice_message : Message :=
  {| message_id := 7%Z; date := Some 1700000000%Z; from_user := None;
     caption := None; chat := chat_example;
     document := None; photo := []; video := None; audio := None;
     voice := Some {| voice_file_id := py "AwACAg"; voice_file_size := Some 2048%Z;
                      voice_duration := 3%Z |};
     video_note := None |}.






(** ** Worlds of the worked examples *)

Definition out_dir : Path := [py "out"].
Definition in_dir : Path := [py "in"].

(** An output root with nothing in it. *)
Definition world_out : World :=
  {| fs := {[ out_dir := Dir ]}; out := [] |}.

(** An output root that already holds a folder [notes]. *)
Definition world_notes : World :=
  {| fs := <[ child out_dir (py "notes") := Dir ]> {[ out_dir := Dir ]}; out := [] |}.

(** The command lines of the worked examples. *)
Definition generate_args (dry_run : bool) : Namespace :=
  {| input_dir := in_dir; output_dir := out_dir; recursive := false;
     include_ext := None; exclude_ext := None; copy_original := true;
     use_ai := false; model := py "gemini-1.5-flash"; api_key := None;
     max_bytes := 120000; dry_run := dry_run |}.

Definition organize_argv (dry_run : bool) : Argv :=
  {| arg_source_dir := in_dir; arg_output_dir := Some out_dir; arg_move := false;
     arg_include_ext := None; arg_exclude_ext := None;
     arg_readme_filename := README_md; arg_model := py "gemini-1.5-flash";
     arg_skip_ai := true; arg_overwrite := false; arg_dry_run := dry_run;
     arg_verbose := false |}.

(** A text generator that is never reached or never answers. *)
Definition no_markdown : FS -> Path -> Str -> Str -> option Str :=
  fun _ _ _ _ => None.

Definition no_readme : FS -> Path -> Str -> Str -> Str :=
  fun _ _ _ _ => [].

(** An input directory with three files, and no output root yet. *)
Definition world_three_files : World :=
  {| fs := <[ child in_dir (py "a.txt") := File (Data (py "alpha")) ]>
           (<[ child in_dir (py "b.csv") := File (Data (py "1,2")) ]>
           (<[ child in_dir (py "c.TXT") := File (Data (py "gamma")) ]>
           {[ in_dir := Dir ]}));
     out := [] |}.

(** * Properties *)

(** ** Strings *)

Lemma lstrip_Forall (Q : N -> Prop) P s : Forall Q s -> Forall Q (lstrip P s).
Proof.
  induction 1 as [|c r Hc Hr IH]; simpl; [constructor|].
  destruct (P c); [exact IH | by constructor].
Qed.

Lemma rstrip_Forall (Q : N -> Prop) P s : Forall Q s -> Forall Q (rstrip P s).
Proof.
  intros H. unfold rstrip.
  apply Forall_rev, lstrip_Forall, Forall_rev, H.
Qed.

Lemma strip_Forall (Q : N -> Prop) P s : Forall Q s -> Forall Q (strip P s).
Proof. intros H. by apply rstrip_Forall, lstrip_Forall. Qed.

Lemma lstrip_suffix P s : exists t, s = t ++ lstrip P s.
Proof.
  induction s as [|c r [t Ht]]; simpl; [by exists []|].
  destruct (P c); [|by exists []].
  exists (c :: t). simpl. by f_equal.
Qed.

Lemma rstrip_prefix P s : exists t, s = rstrip P s ++ t.
Proof.
  unfold rstrip. destruct (lstrip_suffix P (rev s)) as [t Ht].
  exists (rev t). rewrite <- rev_app_distr, <- Ht. by rewrite rev_involutive.
Qed.

Lemma lstrip_head P s c r : lstrip P s = c :: r -> P c = false.
Proof.
  induction s as [|a s IH]; simpl; [done|].
  destruct (P a) eqn:Ha; [exact IH|]. by intros [= <- _].
Qed.

Lemma lstrip_snoc_keep P l c : P c = false -> lstrip P (l ++ [c]) = lstrip P l ++ [c].
Proof.
  intros Hc. induction l as [|a l IH]; simpl; [by rewrite Hc|].
  by destruct (P a).
Qed.

Lemma rstrip_cons_keep P c u : P c = false -> rstrip P (c :: u) = c :: rstrip P u.
Proof.
  intros Hc. unfold rstrip. simpl.
  by rewrite lstrip_snoc_keep, rev_app_distr.
Qed.

Lemma rstrip_rstrip P s : rstrip P (rstrip P s) = rstrip P s.
Proof.
  unfold rstrip. rewrite rev_involutive. f_equal.
  destruct (lstrip P (rev s)) as [|c r] eqn:E; [done|].
  simpl. by rewrite (lstrip_head _ _ _ _ E).
Qed.

(** [strip] is a projection: what it returns has nothing left to strip. *)
Lemma strip_strip P s : strip P (strip P s) = strip P s.
Proof.
  unfold strip.
  destruct (lstrip P s) as [|c u] eqn:E; [done|].
  pose proof (lstrip_head _ _ _ _ E) as Hc.
  rewrite (rstrip_cons_keep _ _ _ Hc). simpl. rewrite Hc.
  rewrite <- (rstrip_cons_keep _ _ _ Hc). apply rstrip_rstrip.
Qed.





Lemma has_double_cons_false sep a s :
  has_double sep (a :: s) = false -> has_double sep s = false.
Proof.
  simpl. destruct s as [|b s]; [done|].
  intros H. by apply orb_false_iff in H as [_ H].
Qed.

Lemma has_double_app_false sep s t :
  has_double sep (s ++ t) = false ->
  has_double sep s = false /\ has_double sep t = false.
Proof.
  induction s as [|a s IH]; [done|].
  intros H. destruct (IH (has_double_cons_false _ _ _ H)) as [Hs Ht].
  split; [|exact Ht].
  destruct s as [|b s]; [done|].
  simpl in H. apply orb_false_iff in H as [Hab _].
  change (((a =? sep) && (b =? sep)) || has_double sep (b :: s) = false).
  by rewrite Hab, Hs.
Qed.

Lemma strip_no_double sep P s :
  has_double sep s = false -> has_double sep (strip P s) = false.
Proof.
  intros H. unfold strip.
  destruct (lstrip_suffix P s) as [t Ht].
  destruct (rstrip_prefix P (lstrip P s)) as [u Hu].
  rewrite Ht in H. apply has_double_app_false in H as [_ H].
  rewrite Hu in H. by apply has_double_app_false in H as [H _].
Qed.

Lemma digits_inj d1 d2 : digits d1 = digits d2 -> d1 = d2.
Proof.
  revert d2. induction d1; intros [] H; simpl in H;
    try discriminate; try done;
    injection H as H; f_equal; by apply IHd1.
Qed.

Lemma str_of_nat_inj n m : str_of_nat n = str_of_nat m -> n = m.
Proof.
  intros H. apply digits_inj in H.
  by rewrite <- (Unsigned.of_to n), <- (Unsigned.of_to m), H.
Qed.

(** ** The two sanitizers *)


Lemma str_or_Forall (Q : N -> Prop) a b :
  Forall Q a -> Forall Q b -> Forall Q (str_or a b).
Proof. by destruct a. Qed.

Lemma sub_dash_runs_Forall (Q : N -> Prop) s :
  Forall Q s -> Forall Q (sub_dash_runs s).
Proof.
  induction 1 as [|c r Hc Hr IH]; [constructor|].
  destruct r as [|c' r']; [by repeat constructor|].
  change (Forall Q (if (c =? chr_dash) && (c' =? chr_dash)
                    then sub_dash_runs (c' :: r')
                    else c :: sub_dash_runs (c' :: r'))).
  destruct ((c =? chr_dash) && (c' =? chr_dash)); [exact IH | by constructor].
Qed.

Lemma sub_outside_class_Forall name :
  Forall (fun c => dir_name_class c = true) (sub_outside_class name).
Proof.
  unfold sub_outside_class. apply List.Forall_map, Forall_forall.
  intros c _. by destruct (dir_name_class c) eqn:E.
Qed.

Lemma sub_outside_class_id s :
  Forall (fun c => dir_name_class c = true) s -> sub_outside_class s = s.
Proof.
  induction 1 as [|c r Hc Hr IH]; [done|].
  unfold sub_outside_class in *. simpl. by rewrite Hc, IH.
Qed.

(** The head of [sub_dash_runs s] is the head of [s]. *)
Lemma sub_dash_runs_head c r : exists t, sub_dash_runs (c :: r) = c :: t.
Proof.
  revert c. induction r as [|c' r IH]; intros c; [by exists []|].
  change (exists t, (if (c =? chr_dash) && (c' =? chr_dash)
                     then sub_dash_runs (c' :: r)
                     else c :: sub_dash_runs (c' :: r)) = c :: t).
  destruct ((c =? chr_dash) && (c' =? chr_dash)) eqn:E; [|by eexists].
  apply andb_true_iff in E as [E1 E2].
  apply N.eqb_eq in E1, E2. subst c. rewrite <- E2. apply IH.
Qed.

Lemma sub_dash_runs_no_double s :
  has_double chr_dash (sub_dash_runs s) = false.
Proof.
  induction s as [|c r IH]; [done|].
  destruct r as [|c' r']; [done|].
  change (has_double chr_dash
            (if (c =? chr_dash) && (c' =? chr_dash)
             then sub_dash_runs (c' :: r')
             else c :: sub_dash_runs (c' :: r')) = false).
  destruct ((c =? chr_dash) && (c' =? chr_dash)) eqn:E; [exact IH|].
  destruct (sub_dash_runs_head c' r') as [t Ht].
  rewrite Ht in *. simpl. simpl in IH. by rewrite E, IH.
Qed.

Lemma sub_dash_runs_id s :
  has_double chr_dash s = false -> sub_dash_runs s = s.
Proof.
  induction s as [|c r IH]; [done|].
  intros H. pose proof (has_double_cons_false _ _ _ H) as Hr.
  destruct r as [|c' r']; [done|].
  simpl in H. apply orb_false_iff in H as [Hcc _].
  change ((if (c =? chr_dash) && (c' =? chr_dash)
           then sub_dash_runs (c' :: r')
           else c :: sub_dash_runs (c' :: r')) = c :: c' :: r').
  by rewrite Hcc, IH.
Qed.

(** X1: [sanitize_for_dir_name] is idempotent.  What it returns before
    the fallback is a fixed point of each of its three passes. *)
Lemma sanitize_for_dir_name_idempotent name :
  sanitize_for_dir_name (sanitize_for_dir_name name) = sanitize_for_dir_name name.
Proof.
  unfold sanitize_for_dir_name at 2 3.
  set (r := strip dash_dot_underscore (sub_dash_runs (sub_outside_class name))).
  assert (Hcls : Forall (fun c => dir_name_class c = true) r)
    by apply strip_Forall, sub_dash_runs_Forall, sub_outside_class_Forall.
  assert (Hdbl : has_double chr_dash r = false)
    by apply strip_no_double, sub_dash_runs_no_double.
  assert (Hfix : strip dash_dot_underscore r = r) by apply strip_strip.
  destruct r as [|c r'] eqn:Er; [reflexivity|].
  unfold str_or at 1. simpl is_empty. cbv iota.
  unfold sanitize_for_dir_name.
  by rewrite (sub_outside_class_id _ Hcls), (sub_dash_runs_id _ Hdbl), Hfix.
Qed.

(** Induction that follows a scan reading two characters at a time. *)
Lemma str_pair_ind (P : Str -> Prop) :
  P [] -> (forall a, P [a]) ->
  (forall a b r, P r -> P (b :: r) -> P (a :: b :: r)) ->
  forall s, P s.
Proof.
  intros H0 H1 H2 s.
  assert (G : P s /\ forall a, P (a :: s)); [|exact (proj1 G)].
  induction s as [|b r [IHr IHbr]]; [by split|].
  split; [apply IHbr|]. intros a. by apply H2.
Qed.

Lemma replace_dunder_Forall (Q : N -> Prop) s :
  Q chr_underscore -> Forall Q s -> Forall Q (replace_dunder s).
Proof.
  intros Hu. induction s as [|a|a b r IHr IHbr] using str_pair_ind; [done..|].
  intros H.
  change (Forall Q (if (a =? chr_underscore) && (b =? chr_underscore)
                    then chr_underscore :: replace_dunder r
                    else a :: replace_dunder (b :: r))).
  inversion H as [|? ? Ha Hbr]; subst. inversion Hbr as [|? ? Hb Hr]; subst.
  destruct ((a =? chr_underscore) && (b =? chr_underscore));
    constructor; auto.
Qed.

Lemma collapse_dunder_loop_Forall (Q : N -> Prop) fuel s :
  Q chr_underscore -> Forall Q s -> Forall Q (collapse_dunder_loop fuel s).
Proof.
  intros Hu. revert s. induction fuel as [|fuel IH]; intros s H; [done|].
  simpl. destruct (has_dunder s); [|done].
  by apply IH, replace_dunder_Forall.
Qed.

Lemma replace_dunder_shorter s :
  (length (replace_dunder s) <= length s)%nat
  /\ (has_dunder s = true -> (length (replace_dunder s) < length s)%nat).
Proof.
  induction s as [|a|a b r IHr IHbr] using str_pair_ind; [by split..|].
  change (replace_dunder (a :: b :: r))
    with (if (a =? chr_underscore) && (b =? chr_underscore)
          then chr_underscore :: replace_dunder r
          else a :: replace_dunder (b :: r)).
  change (has_dunder (a :: b :: r))
    with (((a =? chr_underscore) && (b =? chr_underscore)) || has_dunder (b :: r)).
  destruct ((a =? chr_underscore) && (b =? chr_underscore)); simpl orb.
  - destruct IHr as [Hle _]. simpl. split; [|intros _]; lia.
  - destruct IHbr as [Hle Hlt].
    simpl length in *. split; [lia|]. intros Hd. specialize (Hlt Hd). lia.
Qed.

(** The bound [length safe] of [collapse_dunder] is never the reason the
    loop stops: no ["__"] is left. *)
Lemma collapse_dunder_done s : has_dunder (collapse_dunder s) = false.
Proof.
  unfold collapse_dunder.
  assert (G : forall fuel t, (length t <= fuel)%nat ->
                has_dunder (collapse_dunder_loop fuel t) = false).
  { induction fuel as [|fuel IH]; intros t Hlen.
    - by destruct t; [|simpl in Hlen; lia].
    - simpl. destruct (has_dunder t) eqn:Hd; [|done].
      apply IH. destruct (replace_dunder_shorter t) as [_ Hlt].
      specialize (Hlt Hd). lia. }
  by apply G.
Qed.

Section FolderNameFacts.
Variable uni_alnum : N -> bool.

Lemma sanitize_folder_name_Forall (Q : N -> Prop) name :
  Q chr_underscore -> Forall Q item ->
  Forall (fun c => keeps uni_alnum c = true -> Q c) name ->
  Forall Q (sanitize_folder_name uni_alnum name item).
Proof.
  intros Hu Hitem Hname. unfold sanitize_folder_name.
  destruct (is_empty name); [exact Hitem|].
  apply str_or_Forall; [|exact Hitem].
  do 2 apply strip_Forall.
  apply collapse_dunder_loop_Forall; [exact Hu|].
  apply List.Forall_map. eapply Forall_impl; [exact Hname|].
  intros c Hc. cbv beta in Hc.
  destruct (keeps uni_alnum c); [by apply Hc | exact Hu].
Qed.

Lemma sanitize_folder_name_kept name :
  Forall (fun c => keeps uni_alnum c = true)
         (sanitize_folder_name uni_alnum name item).
Proof.
  apply sanitize_folder_name_Forall; [done | repeat constructor |].
  by apply Forall_forall.
Qed.



End FolderNameFacts.




(** *** A separator between two characters that stay *)














Section FolderNameJoin.
Variable uni_alnum : N -> bool.

End FolderNameJoin.



(** C3 fails on [sanitize_folder_name]: it trims spaces before it strips
    dots and underscores, so the name ["_ a"] is sanitized to [" a"],
    which a second application turns into ["a"]. *)
Theorem sanitize_folder_name_not_idempotent (uni_alnum : N -> bool) :
  sanitize_folder_name uni_alnum (py "_ a") item = py " a"
  /\ sanitize_folder_name uni_alnum (sanitize_folder_name uni_alnum (py "_ a") item) item
     = py "a".
Proof. split; reflexivity. Qed.

(** C9: both sanitizers return ["item"] for [""] and for ["...."]. *)
Theorem sanitize_fallback_literal (uni_alnum : N -> bool) :
  sanitize_for_dir_name (py "") = py "item"
  /\ sanitize_for_dir_name (py "....") = py "item"
  /\ sanitize_folder_name uni_alnum (py "") item = py "item"
  /\ sanitize_folder_name uni_alnum (py "....") item = py "item".
Proof. repeat split; reflexivity. Qed.

Example sanitize_for_dir_name_examples :
  sanitize_for_dir_name (py "my file (1)") = py "my-file-1"
  /\ sanitize_for_dir_name (py "a--b") = py "a-b"
  /\ sanitize_for_dir_name (py "..x_") = py "x"
  /\ sanitize_for_dir_name (py "Report") = py "Report".
Proof. repeat split; reflexivity. Qed.

Example sanitize_folder_name_examples :
  sanitize_folder_name latin1_alnum (py "a$$$b") item = py "a_b"
  /\ sanitize_folder_name latin1_alnum (py "a ._") item = py "a ".
Proof. repeat split; reflexivity. Qed.


(** ** Searching a free name *)

Lemma child_nonempty base name : child base name <> [].
Proof. unfold child. by destruct base. Qed.

Lemma child_inj base n1 n2 : child base n1 = child base n2 -> n1 = n2.
Proof. unfold child. intros H. apply app_inv_head in H. by injection H. Qed.

Lemma parent_child base name : parent (child base name) = base.
Proof. apply removelast_last. Qed.

Lemma node_nonempty (fs : FS) p : p <> [] -> node fs p = fs !! p.
Proof. unfold node. by destruct p. Qed.

Lemma path_exists_delete (fs : FS) p q :
  p <> q -> path_exists (delete p fs) q = path_exists fs q.
Proof.
  intros Hne. unfold path_exists, node.
  destruct (is_empty q); [done|]. by rewrite lookup_delete_ne.
Qed.

Lemma path_exists_insert_same (fs : FS) p x : path_exists (<[p := x]> fs) p = true.
Proof.
  unfold path_exists, node. destruct (is_empty p); [done|].
  by rewrite lookup_insert_eq.
Qed.

Lemma node_insert_ne (fs : FS) p q x : p <> q -> node (<[p := x]> fs) q = node fs q.
Proof.
  intros Hne. unfold node. destruct (is_empty q); [done|].
  by rewrite lookup_insert_ne.
Qed.

(** Among distinct candidate paths, one of the first [size fs + 1] is
    free: the least free index exists and is at most [size fs] away. *)
Lemma least_free (cand : nat -> Path) :
  (forall i, cand i <> []) ->
  (forall i j, cand i = cand j -> i = j) ->
  forall n (fs : FS) i, (size fs <= n)%nat ->
    exists k, (i <= k <= i + n)%nat
      /\ path_exists fs (cand k) = false
      /\ forall j, (i <= j < k)%nat -> path_exists fs (cand j) = true.
Proof.
  intros Hne Hinj. induction n as [|n IH]; intros fs i Hsize.
  - exists i. split; [lia|]. split; [|intros; lia].
    assert (fs = ∅) as -> by (apply map_size_empty_inv; lia).
    unfold path_exists. rewrite node_nonempty by apply Hne.
    by rewrite lookup_empty.
  - destruct (path_exists fs (cand i)) eqn:Ei.
    + assert (Hin : is_Some (fs !! cand i)).
      { unfold path_exists in Ei. rewrite node_nonempty in Ei by apply Hne.
        destruct (fs !! cand i); [by eexists | done]. }
      destruct (IH (delete (cand i) fs) (S i)) as (k & Hk & Hfree & Hocc).
      { destruct Hin as [x Hx].
        pose proof (map_size_delete_Some (cand i) fs (ltac:(by eexists))). lia. }
      assert (Hik : cand i <> cand k) by (intros E; apply Hinj in E; lia).
      exists k. split; [lia|]. split.
      * by rewrite <- (path_exists_delete fs (cand i)).
      * intros j Hj. destruct (decide (j = i)) as [->|Hji]; [done|].
        rewrite <- (path_exists_delete fs (cand i)).
        -- apply Hocc. lia.
        -- intros E. by apply Hinj in E.
    + exists i. split; [lia|]. split; [done | intros; lia].
Qed.

Lemma app_cons_neq (s t : Str) c : s <> s ++ c :: t.
Proof.
  intros E. apply (f_equal (@length N)) in E.
  rewrite length_app in E. simpl in E. lia.
Qed.

Lemma nth_subfolder_inj base desired i j :
  nth_subfolder base desired i = nth_subfolder base desired j -> i = j.
Proof.
  unfold nth_subfolder, dash_name.
  destruct i, j; intros E; apply child_inj in E; try done.
  - by apply app_cons_neq in E.
  - symmetry in E. by apply app_cons_neq in E.
  - apply app_inv_head in E. injection E as E.
    apply str_of_nat_inj in E. lia.
Qed.

Lemma nth_unique_path_inj base desired i j :
  nth_unique_path base desired i = nth_unique_path base desired j -> i = j.
Proof.
  unfold nth_unique_path, underscore_name.
  destruct i, j; intros E; apply child_inj in E; try done.
  - by apply app_cons_neq in E.
  - symmetry in E. by apply app_cons_neq in E.
  - apply app_inv_head in E. injection E as E.
    by apply str_of_nat_inj in E.
Qed.

Lemma nth_subfolder_nonempty base desired i : nth_subfolder base desired i <> [].
Proof. destruct i; apply child_nonempty. Qed.

Lemma nth_unique_path_nonempty base desired i : nth_unique_path base desired i <> [].
Proof. destruct i; apply child_nonempty. Qed.

Lemma subfolder_loop_finds (fs : FS) base desired k :
  path_exists fs (nth_subfolder base desired k) = false ->
  (forall j, (j < k)%nat -> path_exists fs (nth_subfolder base desired j) = true) ->
  forall fuel i, (i <= k)%nat -> (k - i < fuel)%nat ->
    subfolder_loop fuel fs base desired (nth_subfolder base desired i) (S (S i))
    = Some (nth_subfolder base desired k).
Proof.
  intros Hfree Hocc. induction fuel as [|fuel IH]; intros i Hik Hfuel; [lia|].
  simpl. destruct (decide (i = k)) as [->|Hne].
  - by rewrite Hfree.
  - rewrite Hocc by lia. apply (IH (S i)); lia.
Qed.

Lemma unique_path_loop_finds (fs : FS) base desired k :
  path_exists fs (nth_unique_path base desired k) = false ->
  (forall j, (j < k)%nat -> path_exists fs (nth_unique_path base desired j) = true) ->
  forall fuel i, (1 <= i <= k)%nat -> (k - i < fuel)%nat ->
    unique_path_loop fuel fs base desired i
    = Some (nth_unique_path base desired k).
Proof.
  intros Hfree Hocc. induction fuel as [|fuel IH]; intros i Hik Hfuel; [lia|].
  destruct i as [|i]; [lia|].
  simpl. change (child base (underscore_name desired (S i)))
    with (nth_unique_path base desired (S i)).
  destruct (decide (S i = k)) as [<-|Hne].
  - by rewrite Hfree.
  - rewrite Hocc by lia. simpl. apply IH; lia.
Qed.

(** [ensure_unique_path] changes nothing and returns the first free path
    of [desired], [desired_1], [desired_2], ... *)
Lemma ensure_unique_path_least base desired w :
  exists k,
    ensure_unique_path base desired w = (Ok (nth_unique_path base desired k), w)
    /\ path_exists (fs w) (nth_unique_path base desired k) = false
    /\ forall j, (j < k)%nat ->
         path_exists (fs w) (nth_unique_path base desired j) = true.
Proof.
  destruct (least_free (nth_unique_path base desired)
              (nth_unique_path_nonempty base desired)
              (nth_unique_path_inj base desired)
              (size (fs w)) (fs w) 0%nat (le_n _)) as (k & Hk & Hfree & Hocc).
  exists k. split; [|split; [done | intros; apply Hocc; lia]].
  unfold ensure_unique_path, bind, ask_fs, ret.
  destruct k as [|k].
  - simpl in Hfree. by rewrite Hfree.
  - change (child base desired) with (nth_unique_path base desired 0).
    rewrite (Hocc 0%nat) by lia. cbn [negb].
    rewrite (unique_path_loop_finds (fs w) base desired (S k) Hfree);
      [done | intros; apply Hocc; lia | lia | lia].
Qed.

(** *** Making directories *)

Lemma os_mkdir_Ok (p : Path) (fs fs' : FS) :
  os_mkdir p fs = Ok fs' -> node fs p = None /\ fs' = <[p := Dir]> fs.
Proof.
  unfold os_mkdir. destruct (node fs p); [done|].
  destruct (node fs (parent p)) as [[]|]; [|done..]. by intros [= <-].
Qed.

Lemma mkdir_exist_ok_Ok (p : Path) (fs fs' : FS) :
  mkdir_exist_ok p fs = Ok fs' ->
  (node fs p = None /\ fs' = <[p := Dir]> fs) \/ (is_dir fs p = true /\ fs' = fs).
Proof.
  unfold mkdir_exist_ok. destruct (os_mkdir p fs) as [fs1|e] eqn:E.
  - intros [= <-]. left. by apply os_mkdir_Ok.
  - destruct e; try done; destruct (is_dir fs p); try done;
      intros [= <-]; by right.
Qed.

Lemma node_insert_same (fs : FS) (p : Path) x : p <> [] -> node (<[p := x]> fs) p = Some x.
Proof. intros Hp. rewrite node_nonempty by done. apply lookup_insert_eq. Qed.

Lemma node_root (fs : FS) : node fs [] = Some Dir.
Proof. done. Qed.

Lemma is_dir_insert_same (fs : FS) (p : Path) : is_dir (<[p := Dir]> fs) p = true.
Proof.
  unfold is_dir, node. destruct (is_empty p); [done|]. by rewrite lookup_insert_eq.
Qed.

(** What a successful [mkdir] with [parents=True] leaves: the directory
    is there, what existed is as it was, and what is new is a directory
    no deeper than the one asked for. *)
Lemma mkdir_parents_Ok (rp : list Str) : forall (fs fs' : FS),
  mkdir_parents rp fs = Ok fs' ->
  is_dir fs' (rev rp) = true
  /\ (forall q, node fs q <> None -> node fs' q = node fs q)
  /\ (forall q, node fs q = None ->
        node fs' q = None
        \/ (node fs' q = Some Dir /\ (length q <= length rp)%nat)).
Proof.
  assert (Hins : forall (fs : FS) p (n : nat),
            node fs p = None -> length p = n ->
            is_dir (<[p := Dir]> fs) p = true
            /\ (forall q, node fs q <> None -> node (<[p := Dir]> fs) q = node fs q)
            /\ (forall q, node fs q = None ->
                  node (<[p := Dir]> fs) q = None
                  \/ (node (<[p := Dir]> fs) q = Some Dir /\ (length q <= n)%nat))).
  { intros fs p n Hp Hn. split; [apply is_dir_insert_same|]. split.
    - intros q Hq. apply node_insert_ne. intros ->. by rewrite Hp in Hq.
    - intros q Hq. destruct (decide (p = q)) as [<-|Hne].
      + right. split; [|lia]. apply node_insert_same. intros ->.
        by rewrite node_root in Hp.
      + left. by rewrite node_insert_ne. }
  induction rp as [|c rparent IH]; intros fs fs'.
  - cbn [mkdir_parents rev]. unfold os_mkdir. rewrite node_root.
    unfold is_dir. rewrite node_root. intros [= <-]. by repeat split; auto.
  - cbn [mkdir_parents]. destruct (os_mkdir (rev (c :: rparent)) fs) as [fs1|e] eqn:E.
    + intros [= <-]. apply os_mkdir_Ok in E as [Hnone ->].
      apply Hins; [done|]. by rewrite length_rev.
    + assert (Hexists : is_dir fs (rev (c :: rparent)) = true -> fs' = fs ->
                is_dir fs' (rev (c :: rparent)) = true
                /\ (forall q, node fs q <> None -> node fs' q = node fs q)
                /\ (forall q, node fs q = None ->
                      node fs' q = None
                      \/ (node fs' q = Some Dir
                          /\ (length q <= length (c :: rparent))%nat))).
      { intros Hd ->. by repeat split; auto. }
      destruct e;
        try (destruct (is_dir fs (rev (c :: rparent))) eqn:Hd; [|done];
             intros [= <-]; by apply Hexists).
      destruct (mkdir_parents rparent fs) as [fs1|e1] eqn:E1; [|done].
      destruct (IH _ _ E1) as (Hdir1 & Hold1 & Hnew1).
      intros [(Hnone & ->) | (Hd & ->)]%mkdir_exist_ok_Ok.
      * destruct (Hins fs1 (rev (c :: rparent)) (length (c :: rparent)) Hnone)
          as (Hd2 & Hold2 & Hnew2); [by rewrite length_rev|].
        split; [done|]. split.
        -- intros q Hq. rewrite Hold2, Hold1; [done..|]. by rewrite Hold1.
        -- intros q Hq. destruct (Hnew1 q Hq) as [H1|[H1 Hlen]].
           ++ apply Hnew2, H1.
           ++ right. split; [|simpl; lia]. rewrite Hold2; [done|]. by rewrite H1.
      * split; [done|]. split; [done|].
        intros q Hq. destruct (Hnew1 q Hq) as [H1|[H1 Hlen]]; [by left|].
        right. split; [done | simpl; lia].
Qed.

Lemma mkdir_parents_is_dir (rp : list Str) (fs : FS) :
  is_dir fs (rev rp) = true -> mkdir_parents rp fs = Ok fs.
Proof.
  intros Hd.
  assert (E : os_mkdir (rev rp) fs = Raise FileExistsError).
  { unfold os_mkdir. unfold is_dir in Hd. by destruct (node fs (rev rp)). }
  destruct rp; cbn [mkdir_parents]; by rewrite E, Hd.
Qed.

Lemma root_available_is_dir (fs : FS) base :
  is_dir fs base = true -> root_available fs base = true.
Proof.
  intros Hd. unfold root_available.
  by rewrite mkdir_parents_is_dir by (by rewrite rev_involutive).
Qed.

(** Making a directory that does not exist yet under a root that is
    available: the root is made first if need be, then the directory. *)
Lemma mkdir_parents_child (fs fs0 : FS) base name :
  mkdir_parents (rev base) fs = Ok fs0 ->
  path_exists fs (child base name) = false ->
  mkdir_parents (rev (child base name)) fs = Ok (<[child base name := Dir]> fs0).
Proof.
  intros Hroot Hfree.
  destruct (mkdir_parents_Ok _ _ _ Hroot) as (Hdir0 & Hold & Hnew).
  rewrite rev_involutive in Hdir0.
  assert (Hnone : node fs (child base name) = None).
  { unfold path_exists in Hfree. by destruct (node fs (child base name)). }
  assert (Hnone0 : node fs0 (child base name) = None).
  { destruct (Hnew _ Hnone) as [H|[_ Hlen]]; [done|].
    unfold child in Hlen. rewrite length_app, length_rev in Hlen. simpl in Hlen. lia. }
  assert (Emk : os_mkdir (child base name) fs0 = Ok (<[child base name := Dir]> fs0)).
  { unfold os_mkdir. rewrite Hnone0, parent_child.
    unfold is_dir in Hdir0. by destruct (node fs0 base) as [[]|]. }
  assert (Erev : rev (child base name) = name :: rev base)
    by (unfold child; by rewrite rev_app_distr).
  rewrite Erev. cbn [mkdir_parents]. rewrite <- Erev, rev_involutive.
  unfold os_mkdir at 1. rewrite Hnone, parent_child.
  destruct (node fs base) as [[|content]|] eqn:Ebase.
  - assert (fs0 = fs) as ->; [|done].
    rewrite mkdir_parents_is_dir in Hroot; [by injection Hroot|].
    rewrite rev_involutive. unfold is_dir. by rewrite Ebase.
  - assert (node fs0 base = Some (File content)) as Habs
      by (rewrite Hold; [done | by rewrite Ebase]).
    unfold is_dir in Hdir0. by rewrite Habs in Hdir0.
  - rewrite Hroot. unfold mkdir_exist_ok. by rewrite Emk.
Qed.

(** [create_unique_subfolder] returns the first free path of
    [desired], [desired-2], [desired-3], ... and makes it a directory;
    under a root that is available it never raises. *)
Lemma create_unique_subfolder_least base name w fs0 :
  mkdir_parents (rev base) (fs w) = Ok fs0 ->
  exists k,
    let desired := sanitize_for_dir_name name in
    let p := nth_subfolder base desired k in
    create_unique_subfolder base name w
      = (Ok p, {| fs := <[p := Dir]> fs0; out := out w |})
    /\ path_exists (fs w) p = false
    /\ forall j, (j < k)%nat ->
         path_exists (fs w) (nth_subfolder base desired j) = true.
Proof.
  intros Hroot. set (desired := sanitize_for_dir_name name).
  destruct (least_free (nth_subfolder base desired)
              (nth_subfolder_nonempty base desired)
              (nth_subfolder_inj base desired)
              (size (fs w)) (fs w) 0%nat (le_n _)) as (k & Hk & Hfree & Hocc).
  exists k. cbn zeta. split; [|split; [done | intros; apply Hocc; lia]].
  unfold create_unique_subfolder, bind, ask_fs, ret. fold desired.
  change (child base desired) with (nth_subfolder base desired 0).
  rewrite (subfolder_loop_finds (fs w) base desired k Hfree);
    [| intros; apply Hocc; lia | lia | lia].
  unfold ensure_directory, update_fs.
  destruct k; cbn [nth_subfolder] in *;
    (erewrite mkdir_parents_child; [done | exact Hroot | exact Hfree]).
Qed.

(** Whatever the world, the bound of the loop is not what stops
    [create_unique_subfolder]. *)
Lemma create_unique_subfolder_total base name w :
  (create_unique_subfolder base name w).1 <> Raise LoopBound.
Proof.
  set (desired := sanitize_for_dir_name name).
  destruct (least_free (nth_subfolder base desired)
              (nth_subfolder_nonempty base desired)
              (nth_subfolder_inj base desired)
              (size (fs w)) (fs w) 0%nat (le_n _)) as (k & Hk & Hfree & Hocc).
  unfold create_unique_subfolder, bind, ask_fs, ret. fold desired.
  change (child base desired) with (nth_subfolder base desired 0).
  rewrite (subfolder_loop_finds (fs w) base desired k Hfree);
    [| intros; apply Hocc; lia | lia | lia].
  unfold ensure_directory, update_fs.
  destruct (mkdir_parents _ _) as [fs1|e] eqn:E; [done|].
  cbn [fst]. intros [= ->].
  clear -E. revert E. generalize (nth_subfolder base desired k) as p. intros p.
  generalize (rev p) as rp. intros rp. revert w.
  enough (G : forall fs, mkdir_parents rp fs <> Raise LoopBound) by (intros w; apply G).
  induction rp as [|c rp IH]; intros fs; cbn [mkdir_parents].
  - unfold os_mkdir. rewrite node_root. by destruct (is_dir fs (rev [])).
  - unfold os_mkdir.
    destruct (node fs (rev (c :: rp))).
    { by destruct (is_dir fs (rev (c :: rp))). }
    destruct (node fs (parent (rev (c :: rp)))) as [[]|]; [done| |].
    { by destruct (is_dir fs (rev (c :: rp))). }
    destruct (mkdir_parents rp fs) as [fs1|e1] eqn:E1.
    + unfold mkdir_exist_ok, os_mkdir.
      destruct (node fs1 (rev (c :: rp))).
      { by destruct (is_dir fs1 (rev (c :: rp))). }
      destruct (node fs1 (parent (rev (c :: rp)))) as [[]|]; [done| |done].
      by destruct (is_dir fs1 (rev (c :: rp))).
    + intros [= ->]. by apply (IH fs).
Qed.

Lemma is_dir_insert_other (fs : FS) p q :
  is_dir fs q = true -> is_dir (<[p := Dir]> fs) q = true.
Proof.
  intros H. destruct (decide (p = q)) as [->|Hne].
  - apply is_dir_insert_same.
  - unfold is_dir. by rewrite node_insert_ne.
Qed.

Lemma path_exists_insert_false (fs : FS) p q x :
  path_exists (<[p := x]> fs) q = false -> path_exists fs q = false /\ p <> q.
Proof.
  intros H. destruct (decide (p = q)) as [->|Hne].
  - by rewrite path_exists_insert_same in H.
  - split; [|done]. unfold path_exists in *. by rewrite node_insert_ne in H.
Qed.

Lemma mkdir_parents_path_exists (rp : list Str) (fs fs' : FS) (q : Path) :
  mkdir_parents rp fs = Ok fs' ->
  path_exists fs' q = false -> path_exists fs q = false.
Proof.
  intros Hmk Hq. destruct (mkdir_parents_Ok _ _ _ Hmk) as (_ & Hold & _).
  unfold path_exists in *. destruct (node fs q) eqn:E; [|done].
  rewrite Hold in Hq by (by rewrite E). by rewrite E in Hq.
Qed.

Lemma mkdir_parents_keeps_dirs (rp : list Str) (fs fs' : FS) (q : Path) :
  mkdir_parents rp fs = Ok fs' -> is_dir fs q = true -> is_dir fs' q = true.
Proof.
  intros Hmk Hq. destruct (mkdir_parents_Ok _ _ _ Hmk) as (_ & Hold & _).
  unfold is_dir in *. destruct (node fs q) eqn:E; [|done].
  rewrite Hold by (by rewrite E). by rewrite E.
Qed.

Section Allocations.
Variable base : Path.
Variable allocate : M Path.
Hypothesis allocate_step : forall w fs0,
  mkdir_parents (rev base) (fs w) = Ok fs0 ->
  exists p w', allocate w = (Ok p, w')
    /\ fs w' = <[p := Dir]> fs0
    /\ path_exists (fs w) p = false.

Lemma allocations_distinct n : forall w,
  root_available (fs w) base = true ->
  exists ps w',
    allocations allocate n w = (Ok ps, w')
    /\ length ps = n
    /\ NoDup ps
    /\ Forall (fun p => path_exists (fs w) p = false
                        /\ is_dir (fs w') p = true) ps
    /\ (forall q, is_dir (fs w) q = true -> is_dir (fs w') q = true).
Proof.
  induction n as [|n IH]; intros w Hroot.
  - exists [], w. repeat split; [constructor..|done].
  - unfold root_available in Hroot.
    destruct (mkdir_parents (rev base) (fs w)) as [fs0|] eqn:Emk; [|done].
    destruct (allocate_step w fs0 Emk) as (p & w1 & Hrun & Hfs & Hfree).
    destruct (mkdir_parents_Ok _ _ _ Emk) as (Hdir0 & _).
    rewrite rev_involutive in Hdir0.
    destruct (IH w1) as (ps & w' & Hruns & Hlen & Hnd & Hall & Hkeep).
    { apply root_available_is_dir. rewrite Hfs. by apply is_dir_insert_other. }
    exists (p :: ps), w'. cbn [allocations]. unfold bind at 1. rewrite Hrun.
    unfold bind at 1. rewrite Hruns. unfold ret.
    rewrite Hfs in Hall, Hkeep.
    split; [done|]. split; [simpl; lia|]. split; [|split].
    + constructor; [|done]. intros Hin.
      rewrite Forall_forall in Hall. destruct (Hall p Hin) as [Habs _].
      by rewrite path_exists_insert_same in Habs.
    + constructor.
      * split; [done|]. apply Hkeep, is_dir_insert_same.
      * eapply Forall_impl; [exact Hall|]. intros q [Hq1 Hq2].
        split; [|done]. apply path_exists_insert_false in Hq1 as [Hq1 _].
        by apply (mkdir_parents_path_exists _ _ _ _ Emk).
    + intros q Hq. apply Hkeep, is_dir_insert_other.
      by apply (mkdir_parents_keeps_dirs _ _ _ _ Emk).
Qed.
End Allocations.

(** ** Relations kept by a whole computation *)

Section Preserves.
Variable R : World -> World -> Prop.
Hypothesis R_refl : forall w, R w w.
Hypothesis R_trans : forall a b c, R a b -> R b c -> R a c.

Lemma preserves_ret {A} (a : A) : preserves R (ret a).
Proof. intros w. apply R_refl. Qed.

Lemma preserves_raise {A} e : preserves R (@raise A e).
Proof. intros w. apply R_refl. Qed.

Lemma preserves_ask_fs : preserves R ask_fs.
Proof. intros w. apply R_refl. Qed.

Lemma preserves_bind {A B} (m : M A) (k : A -> M B) :
  preserves R m -> (forall a, preserves R (k a)) -> preserves R (bind m k).
Proof.
  intros Hm Hk w. unfold bind. specialize (Hm w).
  destruct (m w) as [[a|e] w1]; [|exact Hm].
  eapply R_trans; [exact Hm | apply Hk].
Qed.

Lemma preserves_when b m : preserves R m -> preserves R (when b m).
Proof. destruct b; [done | intros _; apply preserves_ret]. Qed.

Lemma preserves_for_each {A} (xs : list A) body :
  (forall x, preserves R (body x)) -> preserves R (for_each xs body).
Proof.
  intros Hbody. induction xs as [|x xs IH]; [apply preserves_ret|].
  apply preserves_bind; [apply Hbody | intros _; exact IH].
Qed.

Lemma preserves_process_loop body files counts :
  (forall f c, preserves R (body f c)) ->
  preserves R (process_loop body files counts).
Proof.
  intros Hbody. revert counts.
  induction files as [|f files IH]; intros counts; [apply preserves_ret|].
  apply preserves_bind; [apply Hbody | intros c; apply IH].
Qed.

Lemma preserves_ensure_unique_path base desired :
  preserves R (ensure_unique_path base desired).
Proof.
  intros w. destruct (ensure_unique_path_least base desired w) as (k & -> & _).
  apply R_refl.
Qed.

Lemma preserves_iterdir_files d : preserves R (iterdir_files d).
Proof.
  intros w. unfold iterdir_files. destruct (iterdir d (fs w)); apply R_refl.
Qed.

Lemma preserves_rglob_files d : preserves R (rglob_files d).
Proof. intros w. apply R_refl. Qed.

Section Writes.
Hypothesis R_emit : forall w m, R w {| fs := fs w; out := out w ++ [m] |}.
Hypothesis R_fs : forall w fs', R w {| fs := fs'; out := out w |}.

Lemma preserves_update_fs op : preserves R (update_fs op).
Proof.
  intros w. unfold update_fs. destruct (op (fs w)); [apply R_fs | apply R_refl].
Qed.
End Writes.
End Preserves.

Lemma same_fs_refl w : same_fs w w.
Proof. done. Qed.

Lemma same_fs_trans a b c : same_fs a b -> same_fs b c -> same_fs a c.
Proof. unfold same_fs. congruence. Qed.

Lemma same_fs_emit m : preserves same_fs (emit m).
Proof. done. Qed.

Lemma no_new_skip_refl w : no_new_skip w w.
Proof. by intros d. Qed.

Lemma no_new_skip_trans a b c : no_new_skip a b -> no_new_skip b c -> no_new_skip a c.
Proof. intros H1 H2 d H. by apply H1, H2. Qed.

Lemma no_new_skip_emit m :
  (forall d, m <> LogSkipExistingFolder d) -> preserves no_new_skip (emit m).
Proof.
  intros Hm w d. simpl. rewrite in_app_iff. intros [H|[H|[]]]; [done|].
  by apply Hm in H.
Qed.

Lemma no_new_skip_update_fs op : preserves no_new_skip (update_fs op).
Proof.
  apply preserves_update_fs; [apply no_new_skip_refl|]. by intros w fs' d.
Qed.





(** One step of a proof that a computation keeps a relation: [refl] and
    [trans] are the two preorder lemmas of the relation, [on_emit] deals
    with a line printed. *)
Ltac keep_step refl trans on_emit :=
  lazymatch goal with
  | |- preserves _ (bind _ _) => apply (preserves_bind _ trans); [|intros ?]
  | |- preserves _ (ret _) => apply (preserves_ret _ refl)
  | |- preserves _ (raise _) => apply (preserves_raise _ refl)
  | |- preserves _ ask_fs => apply (preserves_ask_fs _ refl)
  | |- preserves _ (ensure_unique_path _ _) =>
      apply (preserves_ensure_unique_path _ refl)
  | |- preserves _ (iterdir_files _) => apply (preserves_iterdir_files _ refl)
  | |- preserves _ (rglob_files _) => apply (preserves_rglob_files _ refl)
  | |- preserves _ (process_loop _ _ _) =>
      apply (preserves_process_loop _ refl trans); intros ? ?
  | |- preserves _ (for_each _ _) =>
      apply (preserves_for_each _ refl trans); intros ?
  | |- preserves _ (emit _) => on_emit
  | |- preserves _ (when ?b _) => destruct b; cbn [when]
  | |- preserves _ (if ?b then _ else _) => destruct b
  | |- preserves _ (match ?x with _ => _ end) => destruct x
  end.

Ltac keep_no_new_skip :=
  repeat first
    [ apply no_new_skip_update_fs
    | keep_step no_new_skip_refl no_new_skip_trans
        ltac:(by apply no_new_skip_emit) ].


Ltac keep_same_fs :=
  repeat keep_step same_fs_refl same_fs_trans ltac:(apply same_fs_emit).

(** ** organize_with_gemini.py: the loop body *)

Section ProcessOne.
Variable uni_alnum : N -> bool.
Variable lower : Str -> Str.
Variable gemini : FS -> Path -> Str -> Str -> Str.
Variables (output_dir : Path) (include_exts exclude_exts : option (list Str)).
Variables (move_files do_ai : bool) (api_key : option Str).
Variables (model_name readme_filename : Str) (overwrite dry_run : bool).

Let body :=
  process_one uni_alnum lower gemini output_dir include_exts exclude_exts
    move_files do_ai api_key model_name readme_filename overwrite dry_run.

(** The test [dest_dir.exists() and not overwrite] is made on the path
    [ensure_unique_path] has just returned, which does not exist: the
    branch that logs "Skipping existing folder" is never taken. *)
Lemma process_one_no_new_skip file_path counts :
  preserves no_new_skip (body file_path counts).
Proof.
  unfold body, process_one.
  destruct (nonempty_list include_exts && _); [keep_no_new_skip|].
  destruct (nonempty_list exclude_exts && _); [keep_no_new_skip|].
  intros w. unfold bind at 1.
  destruct (ensure_unique_path_least output_dir
              (sanitize_folder_name uni_alnum
                 (str_or (stem file_path) (name_of file_path)) item) w)
    as (k & -> & Hfree & _).
  unfold bind at 1. unfold ask_fs at 1. rewrite Hfree. cbn [andb].
  match goal with
  | |- no_new_skip w (?m w).2 =>
      assert (Hm : preserves no_new_skip m); [|exact (Hm w)]
  end.
  keep_no_new_skip.
Qed.
End ProcessOne.

Section ProcessFiles.
Variable uni_alnum : N -> bool.
Variable lower : Str -> Str.
Variable env_google_api_key : option Str.
Variable gemini : FS -> Path -> Str -> Str -> Str.

Lemma process_files_no_new_skip source_dir output_dir include_exts exclude_exts
    move_files do_ai model_name readme_filename overwrite dry_run :
  preserves no_new_skip
    (process_files uni_alnum lower env_google_api_key gemini source_dir output_dir
       include_exts exclude_exts move_files do_ai model_name readme_filename
       overwrite dry_run).
Proof.
  unfold process_files.
  repeat first
    [ apply process_one_no_new_skip
    | keep_step no_new_skip_refl no_new_skip_trans
        ltac:(by apply no_new_skip_emit) ].
Qed.

(** C10: [ensure_unique_path] returns, leaves the world as it is, and
    the path it returns does not exist; so whatever the flags, a run of
    [process_files] adds no "Skipping existing folder" line to the log:
    the branch guarded by [dest_dir.exists() and not overwrite] is never
    taken. *)
Theorem existing_folder_skip_unreachable
    (source_dir output_dir : Path) (include_exts exclude_exts : option (list Str))
    (move_files do_ai : bool) (model_name readme_filename : Str)
    (overwrite dry_run : bool) (w : World) :
  (forall base_dir desired_name,
     exists p, ensure_unique_path base_dir desired_name w = (Ok p, w)
               /\ path_exists (fs w) p = false)
  /\ (forall dest_dir,
        In (LogSkipExistingFolder dest_dir)
           (out (process_files uni_alnum lower env_google_api_key gemini
                   source_dir output_dir include_exts exclude_exts move_files
                   do_ai model_name readme_filename overwrite dry_run w).2) ->
        In (LogSkipExistingFolder dest_dir) (out w)).
Proof.
  split.
  - intros base_dir desired_name.
    destruct (ensure_unique_path_least base_dir desired_name w) as (k & E & Hfree & _).
    eauto.
  - apply process_files_no_new_skip.
Qed.
End ProcessFiles.

(** ** The two allocators *)

Lemma allocate_folder_least base name w fs0 :
  mkdir_parents (rev base) (fs w) = Ok fs0 ->
  exists k,
    let p := nth_unique_path base name k in
    allocate_folder base name w
      = (Ok p, {| fs := <[p := Dir]> fs0; out := out w |})
    /\ path_exists (fs w) p = false
    /\ forall j, (j < k)%nat ->
         path_exists (fs w) (nth_unique_path base name j) = true.
Proof.
  intros Hroot.
  destruct (ensure_unique_path_least base name w) as (k & E & Hfree & Hocc).
  exists k. cbn zeta. split; [|by split].
  unfold allocate_folder, bind. rewrite E. unfold update_fs, ret.
  destruct k; cbn [nth_unique_path] in *;
    (erewrite mkdir_parents_child; [done | exact Hroot | exact Hfree]).
Qed.

Lemma create_unique_subfolder_step base name w fs0 :
  mkdir_parents (rev base) (fs w) = Ok fs0 ->
  exists p w', create_unique_subfolder base name w = (Ok p, w')
    /\ fs w' = <[p := Dir]> fs0
    /\ path_exists (fs w) p = false.
Proof.
  intros Hroot.
  destruct (create_unique_subfolder_least base name w fs0 Hroot) as (k & E & Hfree & _).
  eauto.
Qed.

Lemma allocate_folder_step base name w fs0 :
  mkdir_parents (rev base) (fs w) = Ok fs0 ->
  exists p w', allocate_folder base name w = (Ok p, w')
    /\ fs w' = <[p := Dir]> fs0
    /\ path_exists (fs w) p = false.
Proof.
  intros Hroot.
  destruct (allocate_folder_least base name w fs0 Hroot) as (k & E & Hfree & _).
  eauto.
Qed.

(** C4, amended: under a destination root that is a directory, or that
    [mkdir] with [parents=True] can make one, [n >= 1] allocations in a
    row for the same name return, and return pairwise distinct paths,
    none of which existed at the start and all of which are directories
    at the end; every single allocation makes the path it returns a
    directory (after the root, when that was missing), and nothing else.
    An allocation is a call of [create_unique_subfolder], or a call of
    [ensure_unique_path] followed by the [dest_dir.mkdir] of
    [process_files] outside a dry run. *)
Theorem allocations_pairwise_distinct (base : Path) (name : Str) (n : nat) (w : World) :
  (1 <= n)%nat ->
  root_available (fs w) base = true ->
  (exists ps w',
     allocations (create_unique_subfolder base name) n w = (Ok ps, w')
     /\ length ps = n /\ NoDup ps
     /\ Forall (fun p => path_exists (fs w) p = false /\ is_dir (fs w') p = true) ps)
  /\ (exists ps w',
        allocations (allocate_folder base name) n w = (Ok ps, w')
        /\ length ps = n /\ NoDup ps
        /\ Forall (fun p => path_exists (fs w) p = false /\ is_dir (fs w') p = true) ps)
  /\ (exists p fs0,
        mkdir_parents (rev base) (fs w) = Ok fs0
        /\ create_unique_subfolder base name w
           = (Ok p, {| fs := <[p := Dir]> fs0; out := out w |})
        /\ path_exists (fs w) p = false)
  /\ (exists p fs0,
        mkdir_parents (rev base) (fs w) = Ok fs0
        /\ allocate_folder base name w
           = (Ok p, {| fs := <[p := Dir]> fs0; out := out w |})
        /\ path_exists (fs w) p = false).
Proof.
  intros _ Hroot. repeat split.
  - destruct (allocations_distinct base _ (create_unique_subfolder_step base name) n w Hroot)
      as (ps & w' & H1 & H2 & H3 & H4 & _). eauto 10.
  - destruct (allocations_distinct base _ (allocate_folder_step base name) n w Hroot)
      as (ps & w' & H1 & H2 & H3 & H4 & _). eauto 10.
  - unfold root_available in Hroot.
    destruct (mkdir_parents (rev base) (fs w)) as [fs0|] eqn:Emk; [|done].
    destruct (create_unique_subfolder_least base name w fs0 Emk) as (k & E & Hfree & _).
    eauto.
  - unfold root_available in Hroot.
    destruct (mkdir_parents (rev base) (fs w)) as [fs0|] eqn:Emk; [|done].
    destruct (allocate_folder_least base name w fs0 Emk) as (k & E & Hfree & _).
    eauto.
Qed.

Lemma allocations_pairwise_distinct_witness :
  (1 <= 3)%nat
  /\ root_available (fs world_three_files) out_dir = true
  /\ exists ps w',
       allocations (create_unique_subfolder out_dir (py "photo")) 3 world_three_files
         = (Ok ps, w')
       /\ length ps = 3%nat /\ NoDup ps
       /\ Forall (fun p => path_exists (fs world_three_files) p = false
                           /\ is_dir (fs w') p = true) ps.
Proof.
  split; [lia|]. split; [reflexivity|].
  apply (allocations_pairwise_distinct out_dir (py "photo") 3 world_three_files);
    [lia | reflexivity].
Defined.

Example allocations_photo :
  (allocations (create_unique_subfolder out_dir (py "photo")) 3 world_out).1
    = Ok [child out_dir (py "photo"); child out_dir (py "photo-2");
          child out_dir (py "photo-3")]
  /\ (allocations (allocate_folder out_dir (py "photo")) 3 world_three_files).1
    = Ok [child out_dir (py "photo"); child out_dir (py "photo_1");
          child out_dir (py "photo_2")].
Proof. split; vm_compute; reflexivity. Qed.

(** C4, as the specification states it, fails on [ensure_unique_path]:
    the function creates nothing, so a second call answers as the first
    did.  It is the [mkdir] of its caller that makes the next answer
    differ. *)
Lemma ensure_unique_path_twice :
  allocations (ensure_unique_path out_dir (py "photo")) 2 world_out
  = (Ok [child out_dir (py "photo"); child out_dir (py "photo")], world_out)
  /\ ~ NoDup [child out_dir (py "photo"); child out_dir (py "photo")]
  /\ path_exists (fs world_out) (child out_dir (py "photo")) = false.
Proof.
  split; [vm_compute; reflexivity|]. split; [|reflexivity].
  intros H. apply NoDup_cons in H as [H _]. apply H. by left.
Qed.

(** C5: both allocators return the first path that does not exist among
    [desired], [desired-2], [desired-3], ... ([create_unique_subfolder])
    and [desired], [desired_1], [desired_2], ... ([ensure_unique_path]),
    never one that exists; so when [notes] exists under the root, and
    the first numbered name is free, they return [notes-2] and
    [notes_1]. *)
Theorem collision_appends_number (base : Path) (desired : Str) (w : World) :
  root_available (fs w) base = true ->
  (exists k,
     (create_unique_subfolder base desired w).1
       = Ok (nth_subfolder base (sanitize_for_dir_name desired) k)
     /\ path_exists (fs w) (nth_subfolder base (sanitize_for_dir_name desired) k) = false
     /\ forall j, (j < k)%nat ->
          path_exists (fs w) (nth_subfolder base (sanitize_for_dir_name desired) j) = true)
  /\ (exists k,
        (ensure_unique_path base desired w).1 = Ok (nth_unique_path base desired k)
        /\ path_exists (fs w) (nth_unique_path base desired k) = false
        /\ forall j, (j < k)%nat ->
             path_exists (fs w) (nth_unique_path base desired j) = true)
  /\ (path_exists (fs w) (child base (py "notes")) = true ->
      path_exists (fs w) (child base (py "notes-2")) = false ->
      (create_unique_subfolder base (py "notes") w).1 = Ok (child base (py "notes-2")))
  /\ (path_exists (fs w) (child base (py "notes")) = true ->
      path_exists (fs w) (child base (py "notes_1")) = false ->
      (ensure_unique_path base (py "notes") w).1 = Ok (child base (py "notes_1"))).
Proof.
  intros Hroot. unfold root_available in Hroot.
  destruct (mkdir_parents (rev base) (fs w)) as [fs0|] eqn:Emk; [|done].
  split; [|split; [|split]].
  - destruct (create_unique_subfolder_least base desired w fs0 Emk)
      as (k & E & Hfree & Hocc).
    exists k. by rewrite E.
  - destruct (ensure_unique_path_least base desired w) as (k & E & Hfree & Hocc).
    exists k. by rewrite E.
  - intros Hnotes Hfree2.
    destruct (create_unique_subfolder_least base (py "notes") w fs0 Emk)
      as (k & E & Hfree & Hocc).
    rewrite E. cbn [fst].
    destruct k as [|[|k]]; [| done |].
    + change (path_exists (fs w) (child base (py "notes")) = false) in Hfree. congruence.
    + specialize (Hocc 1%nat ltac:(lia)).
      change (path_exists (fs w) (child base (py "notes-2")) = true) in Hocc. congruence.
  - intros Hnotes Hfree1.
    destruct (ensure_unique_path_least base (py "notes") w) as (k & E & Hfree & Hocc).
    rewrite E. cbn [fst].
    destruct k as [|[|k]]; [| done |].
    + change (path_exists (fs w) (child base (py "notes")) = false) in Hfree. congruence.
    + specialize (Hocc 1%nat ltac:(lia)).
      change (path_exists (fs w) (child base (py "notes_1")) = true) in Hocc. congruence.
Qed.

Lemma collision_appends_number_witness :
  root_available (fs world_notes) out_dir = true
  /\ path_exists (fs world_notes) (child out_dir (py "notes")) = true
  /\ path_exists (fs world_notes) (child out_dir (py "notes-2")) = false
  /\ path_exists (fs world_notes) (child out_dir (py "notes_1")) = false
  /\ (create_unique_subfolder out_dir (py "notes") world_notes).1
       = Ok (child out_dir (py "notes-2"))
  /\ (ensure_unique_path out_dir (py "notes") world_notes).1
       = Ok (child out_dir (py "notes_1")).
Proof.
  pose proof (collision_appends_number out_dir (py "notes") world_notes eq_refl)
    as (_ & _ & Hdash & Hunderscore).
  split; [reflexivity|]. split; [reflexivity|].
  split; [reflexivity|]. split; [reflexivity|].
  split; [apply Hdash | apply Hunderscore]; reflexivity.
Defined.

Example third_notes :
  (create_unique_subfolder out_dir (py "notes")
     {| fs := <[ child out_dir (py "notes-2") := Dir ]> (fs world_notes); out := [] |}).1
  = Ok (child out_dir (py "notes-3")).
Proof. vm_compute. reflexivity. Qed.

(** ** Extension filters *)



Section ExtensionFilters.
Variable uni_alnum : N -> bool.
Variable lower : Str -> Str.
Variable gemini : FS -> Path -> Str -> Str -> Str.

Lemma filter_files_loop_filter files include_set exclude_set :
  filter_files_loop lower files include_set exclude_set
  = List.filter
      (fun f => negb (bool_decide (lower (suffix f) ∈ exclude_set)))
      (List.filter
         (fun f => match include_set with
                   | Some inc => bool_decide (lower (suffix f) ∈ inc)
                   | None => true
                   end) files).
Proof.
  induction files as [|f files IH]; [done|].
  cbn [filter_files_loop List.filter]. rewrite IH.
  destruct include_set as [inc|].
  - destruct (bool_decide (lower (suffix f) ∈ inc)); cbn [negb List.filter]; [|done].
    by destruct (bool_decide (lower (suffix f) ∈ exclude_set)).
  - cbn [List.filter].
    by destruct (bool_decide (lower (suffix f) ∈ exclude_set)).
Qed.

Lemma bool_decide_list_to_set (x : Str) (l : list Str) :
  bool_decide (x ∈ (list_to_set l : gset Str)) = bool_decide (x ∈ l).
Proof. apply bool_decide_ext, elem_of_list_to_set. Qed.

(** [filter_files] is the include filter followed by the exclude
    filter; an include list that is absent or empty lets every file
    through. *)
Lemma filter_files_filter files include_ext exclude_ext :
  filter_files lower files include_ext exclude_ext
  = List.filter
      (fun f => negb (bool_decide
                        (lower (suffix f) ∈ List.map lower (default [] exclude_ext))))
      (List.filter
         (fun f => negb (nonempty_list include_ext)
                   || bool_decide
                        (lower (suffix f) ∈ List.map lower (default [] include_ext)))
         files).
Proof.
  unfold filter_files. rewrite filter_files_loop_filter.
  assert (Hexc : forall x : Str,
            bool_decide (x ∈ (match exclude_ext with
                              | Some ((_ :: _) as exts) => list_to_set (List.map lower exts)
                              | _ => ∅
                              end : gset Str))
            = bool_decide (x ∈ List.map lower (default [] exclude_ext))).
  { intros x. destruct exclude_ext as [[|e exts]|]; cbn [default].
    - apply bool_decide_ext. set_solver.
    - apply bool_decide_list_to_set.
    - apply bool_decide_ext. set_solver. }
  etrans; [apply List.filter_ext; intros f; rewrite Hexc; reflexivity|].
  f_equal. apply List.filter_ext. intros f.
  destruct include_ext as [[|e exts]|]; cbn [nonempty_list negb orb default]; [done| |done].
  apply bool_decide_list_to_set.
Qed.



Section Body.
Variables (output_dir : Path) (include_exts exclude_exts : option (list Str)).
Variables (move_files do_ai : bool) (api_key : option Str).
Variables (model_name readme_filename : Str) (overwrite dry_run : bool).
Variables (file_path : Path) (counts : nat * nat) (w : World).

Let body :=
  process_one uni_alnum lower gemini output_dir include_exts exclude_exts
    move_files do_ai api_key model_name readme_filename overwrite dry_run
    file_path counts.



End Body.






End ExtensionFilters.



Example include_txt_scenario :
  filter_files ascii_lower
    [child in_dir (py "a.txt"); child in_dir (py "b.csv"); child in_dir (py "c.TXT")]
    (Some [py ".txt"]) None
  = [child in_dir (py "a.txt"); child in_dir (py "c.TXT")].
Proof. vm_compute. reflexivity. Qed.

Example exclude_log_scenario :
  filter_files ascii_lower
    [child in_dir (py "a.LOG"); child in_dir (py "b.csv"); child in_dir (py "c.log")]
    None (Some [py ".log"])
  = [child in_dir (py "b.csv")].
Proof. vm_compute. reflexivity. Qed.

Example include_and_exclude :
  filter_files ascii_lower
    [child in_dir (py "a.txt"); child in_dir (py "b.csv")]
    (Some [py ".txt"; py ".csv"]) (Some [py ".TXT"])
  = [child in_dir (py "b.csv")].
Proof. vm_compute. reflexivity. Qed.

Example empty_include_flag :
  normalize_exts ascii_lower (parse_ext_list (Some (py ","))) = None
  /\ normalize_exts ascii_lower (parse_ext_list (Some (py ".PY, md"))) 
     = Some [py ".py"; py ".md"].
Proof. split; vm_compute; reflexivity. Qed.

(** ** groups_file.py: the upload *)

Lemma send_file_except_reason e : exists reason, reason_of (send_file_except e) = Some reason.
Proof.
  destruct e as [|text| |]; cbn [send_file_except]; [by eexists| |by eexists..].
  destruct (contains (py "Chat not found") text); [by eexists|].
  destruct (contains (py "Request Entity Too Large") text); [by eexists|].
  destruct (contains (py "Timed out") text); by eexists.
Qed.

(** C8: the ceiling is 50 MB; a file above it is refused with the
    too-large line before the file is opened or anything is sent.
    Whatever the outside world answers, [send_file] returns, and it
    returns [True] only after a completed upload: when reading the size,
    opening the file or [send_document] raises, the value is [False] and
    the last line printed is the one the [except] clauses choose for the
    exception; [send_document] is awaited exactly when the size was
    read, is within the ceiling and the file was opened.  Each such line
    reports one of the four reasons: a timeout is
    timed-out, a missing file not-found, a [TelegramError] not-found,
    too-large, timed-out or other by its text, anything else other. *)
Theorem send_file_failures (remote : Remote) :
  max_size = 52428800
  /\ (forall file_size,
        getsize remote = inr file_size -> max_size < file_size ->
        send_file remote = (false, [PrintTooLarge file_size]))
  /\ ((exists file_size,
         send_file remote
           = (true, [PrintSending file_size; OpenFile; SendDocument; PrintSent]))
      \/ ((send_file remote).1 = false
          /\ exists line reason,
               last (send_file remote).2 = Some line
               /\ reason_of line = Some reason))
  /\ ((send_file remote).1 = true ->
      exists file_size,
        getsize remote = inr file_size /\ file_size <= max_size
        /\ open_rb remote = None /\ send_document remote = None)
  /\ (forall e,
        getsize remote = inl e
        \/ (exists file_size,
              getsize remote = inr file_size /\ file_size <= max_size
              /\ (open_rb remote = Some e
                  \/ (open_rb remote = None /\ send_document remote = Some e))) ->
        (send_file remote).1 = false
        /\ last (send_file remote).2 = Some (send_file_except e))
  /\ (In SendDocument (send_file remote).2
      <-> exists file_size,
            getsize remote = inr file_size /\ file_size <= max_size
            /\ open_rb remote = None)
  /\ (forall e,
        reason_of (send_file_except e)
        = Some match e with
               | AsyncioTimeoutError => TimedOut
               | SendFileNotFoundError => NotFound
               | OtherException => Other
               | TelegramError text =>
                   if contains (py "Chat not found") text then NotFound
                   else if contains (py "Request Entity Too Large") text then TooLarge
                   else if contains (py "Timed out") text then TimedOut
                   else Other
               end).
Proof.
  assert (Hno : forall e, send_file_except e <> SendDocument).
  { intros [|text| |]; cbn [send_file_except]; try done.
    by repeat destruct (contains _ _). }
  split; [reflexivity|]. split; [|split; [|split; [|split; [|split]]]].
  - intros file_size Hsize Hlarge. unfold send_file. rewrite Hsize.
    apply N.ltb_lt in Hlarge. by rewrite Hlarge.
  - unfold send_file. destruct (getsize remote) as [e|file_size].
    + right. split; [done|]. destruct (send_file_except_reason e) as [reason H].
      by exists (send_file_except e), reason.
    + destruct (max_size <? file_size).
      { right. split; [done|]. by exists (PrintTooLarge file_size), TooLarge. }
      destruct (open_rb remote) as [e|].
      { right. split; [done|]. destruct (send_file_except_reason e) as [reason H].
        by exists (send_file_except e), reason. }
      destruct (send_document remote) as [e|].
      { right. split; [done|]. destruct (send_file_except_reason e) as [reason H].
        by exists (send_file_except e), reason. }
      left. by exists file_size.
  - unfold send_file. destruct (getsize remote) as [e|file_size]; [done|].
    destruct (max_size <? file_size) eqn:Esize; [done|]. apply N.ltb_ge in Esize.
    destruct (open_rb remote) as [e|]; [done|].
    destruct (send_document remote) as [e|]; [done|].
    intros _. by exists file_size.
  - intros e. unfold send_file.
    intros [->|(file_size & -> & Hsize & Hfail)]; [done|].
    apply N.ltb_ge in Hsize. rewrite Hsize.
    by destruct Hfail as [->|[-> ->]].
  - unfold send_file. destruct (getsize remote) as [e|file_size].
    { split; [intros [H|[]]; by apply Hno in H | by intros (? & ? & _)]. }
    destruct (max_size <? file_size) eqn:Esize.
    { apply N.ltb_lt in Esize.
      split; [by intros [H|[]] | intros (? & [= <-] & ? & _); lia]. }
    apply N.ltb_ge in Esize. destruct (open_rb remote) as [e|].
    { split; [|by intros (? & _ & _ & ?)].
      intros [H|[H|[]]]; [done | by apply Hno in H]. }
    destruct (send_document remote) as [e|];
      (split; [intros _; by exists file_size | intros _; simpl; tauto]).
  - intros [|text| |]; cbn [send_file_except]; try done.
    by repeat destruct (contains _ _).
Qed.

Lemma send_file_failures_witness :
  max_size < 52428801
  /\ send_file {| getsize := inr 52428801; open_rb := None; send_document := None |}
     = (false, [PrintTooLarge 52428801]).
Proof.
  split; [reflexivity|].
  apply (proj1 (proj2 (send_file_failures
           {| getsize := inr 52428801; open_rb := None; send_document := None |})));
    reflexivity.
Defined.

Example send_file_at_the_ceiling :
  send_file {| getsize := inr 52428800; open_rb := None; send_document := None |}
  = (true, [PrintSending 52428800; OpenFile; SendDocument; PrintSent]).
Proof. reflexivity. Qed.

Example send_file_reasons :
  send_file {| getsize := inl SendFileNotFoundError; open_rb := None;
               send_document := None |}
  = (false, [PrintFileNotFound])
  /\ send_file {| getsize := inr 10; open_rb := None;
                  send_document := Some (TelegramError (py "Bad Request: Chat not found")) |}
     = (false, [PrintSending 10; OpenFile; SendDocument; PrintChatNotFound])
  /\ send_file {| getsize := inr 10; open_rb := None;
                  send_document := Some AsyncioTimeoutError |}
     = (false, [PrintSending 10; OpenFile; SendDocument; PrintTimedOut]).
Proof. repeat split; vm_compute; reflexivity. Qed.

(** ** Exit status of the two entry points *)

Lemma returns_ret {A} (P : A -> Prop) a : P a -> returns P (ret a).
Proof. intros H w a' w' [= <- _]. exact H. Qed.

Lemma returns_bind {A B} (P : B -> Prop) (m : M A) (k : A -> M B) :
  (forall a, returns P (k a)) -> returns P (bind m k).
Proof.
  intros Hk w b w'. unfold bind. destruct (m w) as [[a|e] w1]; [apply Hk | done].
Qed.

Lemma is_dir_exists (fs : FS) p : is_dir fs p = true -> path_exists fs p = true.
Proof. unfold is_dir, path_exists. by destruct (node fs p) as [[]|]. Qed.

Section EntryPoints.
Variable uni_alnum : N -> bool.
Variable lower : Str -> Str.
Variable env_google_api_key : option Str.
Variable markdown : FS -> Path -> Str -> Str -> option Str.
Variable gemini : FS -> Path -> Str -> Str -> Str.

Lemma generate_main_invalid args w :
  is_dir (fs w) (input_dir args) = false ->
  generate_main lower env_google_api_key markdown args w
  = (Ok 2%Z, {| fs := fs w; out := out w ++ [ErrInputDir (input_dir args)] |}).
Proof.
  intros H. unfold generate_main. unfold bind at 1. unfold ask_fs at 1.
  rewrite H. cbn [negb]. by rewrite orb_true_r.
Qed.

Lemma generate_main_valid args w :
  is_dir (fs w) (input_dir args) = true ->
  forall status w',
    generate_main lower env_google_api_key markdown args w = (Ok status, w') ->
    status = 0%Z.
Proof.
  intros H status w'. unfold generate_main. unfold bind at 1. unfold ask_fs at 1.
  rewrite H, (is_dir_exists _ _ H). cbn [negb orb].
  match goal with
  | |- ?m w = _ -> _ =>
      assert (Hm : returns (fun s => s = 0%Z) m); [|apply Hm]
  end.
  do 3 (apply returns_bind; intros ?).
  destruct (is_empty _); repeat (apply returns_bind; intros ?); by apply returns_ret.
Qed.

Lemma parse_args_invalid argv w :
  is_dir (fs w) (arg_source_dir argv) = false ->
  parse_args argv w
  = (Raise (SystemExit (ExitMessage (ErrSourceDir (arg_source_dir argv)))), w).
Proof.
  intros H. unfold parse_args. unfold bind at 1. unfold ask_fs at 1.
  rewrite H. cbn [negb]. by rewrite orb_true_r.
Qed.

Lemma organize_main_returns argv :
  returns (fun s => s = 0%Z)
    (organize_main uni_alnum lower env_google_api_key gemini argv).
Proof.
  unfold organize_main. repeat (apply returns_bind; intros ?). by apply returns_ret.
Qed.

(** C7: with an input path that is missing or not a directory,
    generate_folders.py exits with status 2 and organize_with_gemini.py
    with status 1, each after one line that reports the path and with
    the filesystem untouched; and whenever [main] returns normally on a
    valid input directory the status is 0. *)
Theorem exit_status_of_entry_points (args : Namespace) (argv : Argv) (w : World) :
  (is_dir (fs w) (input_dir args) = false ->
   script (generate_main lower env_google_api_key markdown args) w
   = (2%Z, {| fs := fs w; out := out w ++ [ErrInputDir (input_dir args)] |}))
  /\ (is_dir (fs w) (arg_source_dir argv) = false ->
      script (organize_main uni_alnum lower env_google_api_key gemini argv) w
      = (1%Z, {| fs := fs w; out := out w ++ [ErrSourceDir (arg_source_dir argv)] |}))
  /\ (is_dir (fs w) (input_dir args) = true ->
      forall status w',
        generate_main lower env_google_api_key markdown args w = (Ok status, w') ->
        script (generate_main lower env_google_api_key markdown args) w = (0%Z, w'))
  /\ (forall status w',
        organize_main uni_alnum lower env_google_api_key gemini argv w = (Ok status, w') ->
        script (organize_main uni_alnum lower env_google_api_key gemini argv) w = (0%Z, w')
        /\ is_dir (fs w) (arg_source_dir argv) = true).
Proof.
  split; [|split; [|split]].
  - intros H. unfold script. by rewrite generate_main_invalid.
  - intros H. unfold script, organize_main. unfold bind at 1.
    by rewrite parse_args_invalid.
  - intros H status w' Hrun. unfold script. rewrite Hrun.
    by rewrite (generate_main_valid args w H status w' Hrun).
  - intros status w' Hrun. split.
    + unfold script. rewrite Hrun.
      by rewrite (organize_main_returns argv w status w' Hrun).
    + destruct (is_dir (fs w) (arg_source_dir argv)) eqn:E; [done|].
      unfold organize_main in Hrun. unfold bind at 1 in Hrun.
      by rewrite parse_args_invalid in Hrun.
Qed.
End EntryPoints.

Lemma exit_status_of_entry_points_witness :
  is_dir (fs world_out) in_dir = false
  /\ script (generate_main ascii_lower None no_markdown (generate_args false)) world_out
     = (2%Z, {| fs := fs world_out; out := [ErrInputDir in_dir] |})
  /\ script (organize_main latin1_alnum ascii_lower None no_readme (organize_argv false))
       world_out
     = (1%Z, {| fs := fs world_out; out := [ErrSourceDir in_dir] |}).
Proof.
  pose proof (exit_status_of_entry_points latin1_alnum ascii_lower None no_markdown
                no_readme (generate_args false) (organize_argv false) world_out)
    as (Hgen & Horg & _).
  split; [reflexivity|]. split; [apply Hgen | apply Horg]; reflexivity.
Defined.

Example exit_status_zero :
  (script (generate_main ascii_lower None no_markdown (generate_args false))
     world_three_files).1 = 0%Z
  /\ (script (organize_main latin1_alnum ascii_lower None no_readme (organize_argv false))
        world_three_files).1 = 0%Z.
Proof. split; vm_compute; reflexivity. Qed.

(** ** The dry run *)

Section DryRun.
Variable uni_alnum : N -> bool.
Variable lower : Str -> Str.
Variable env_google_api_key : option Str.
Variable markdown : FS -> Path -> Str -> Str -> option Str.
Variable gemini : FS -> Path -> Str -> Str -> Str.

Lemma process_one_dry_run output_dir include_exts exclude_exts move_files do_ai
    api_key model_name readme_filename overwrite file_path counts :
  preserves same_fs
    (process_one uni_alnum lower gemini output_dir include_exts exclude_exts
       move_files do_ai api_key model_name readme_filename overwrite true
       file_path counts).
Proof. unfold process_one. cbn [negb when]. keep_same_fs. Qed.

(** In a dry run organize_with_gemini.py leaves the filesystem as it
    is, whatever it is given. *)
Lemma organize_main_dry_run argv :
  arg_dry_run argv = true ->
  preserves same_fs (organize_main uni_alnum lower env_google_api_key gemini argv).
Proof.
  intros Hdry w. unfold organize_main. unfold bind at 1.
  unfold parse_args. unfold bind at 1. unfold ask_fs at 1.
  destruct (negb _ || negb _); [done|].
  unfold ret at 1. cbn [arg_dry_run]. rewrite Hdry.
  match goal with
  | |- same_fs w (?m w).2 => assert (Hm : preserves same_fs m); [|exact (Hm w)]
  end.
  unfold process_files.
  repeat first
    [ apply process_one_dry_run
    | keep_step same_fs_refl same_fs_trans ltac:(apply same_fs_emit) ].
Qed.

(** In a dry run [process_file] of generate_folders.py still makes the
    folder of the file: [create_unique_subfolder] is not told about the
    flag.  Nothing else is written. *)
Lemma process_file_dry_run file_path output_dir copy_original use_ai model_name
    api_key max_bytes w fs0 :
  mkdir_parents (rev output_dir) (fs w) = Ok fs0 ->
  exists p,
    path_exists (fs w) p = false
    /\ fs (process_file markdown file_path output_dir copy_original use_ai
             model_name api_key max_bytes true w).2
       = <[p := Dir]> fs0.
Proof.
  intros Hroot. unfold process_file. unfold bind at 1.
  destruct (create_unique_subfolder_least output_dir (stem file_path) w fs0 Hroot)
    as (k & -> & Hfree & _).
  eexists. split; [exact Hfree|].
  match goal with
  | |- fs (?m ?w1).2 = _ =>
      assert (Hm : preserves same_fs m); [|exact (Hm w1)]
  end.
  unfold write_readme. keep_same_fs.
Qed.
End DryRun.

(** C1 fails on generate_folders.py.  A dry run over a directory of
    three files, with no output root yet, exits with status 0 and prints
    the "would write" lines of the three files, but it has made the
    output root and one folder per file. *)
Theorem generate_dry_run_creates_folders :
  let result :=
    script (generate_main ascii_lower None no_markdown (generate_args true))
      world_three_files in
  result.1 = 0%Z
  /\ path_exists (fs world_three_files) out_dir = false
  /\ is_dir (fs result.2) out_dir = true
  /\ is_dir (fs result.2) (child out_dir (py "a")) = true
  /\ is_dir (fs result.2) (child out_dir (py "b")) = true
  /\ is_dir (fs result.2) (child out_dir (py "c")) = true
  /\ size (fs result.2) = (size (fs world_three_files) + 4)%nat
  /\ In (WouldWriteReadme (child out_dir (py "a"))) (out result.2)
  /\ In (WouldWriteReadme (child out_dir (py "b"))) (out result.2)
  /\ In (WouldWriteReadme (child out_dir (py "c"))) (out result.2).
Proof.
  vm_compute. repeat split; tauto.
Qed.

Example organize_dry_run_three_files :
  let result :=
    script (organize_main latin1_alnum ascii_lower None no_readme (organize_argv true))
      world_three_files in
  result.1 = 0%Z
  /\ fs result.2 = fs world_three_files
  /\ In (LogPreparing (child out_dir (py "a"))) (out result.2)
  /\ In (LogPreparing (child out_dir (py "b"))) (out result.2)
  /\ In (LogPreparing (child out_dir (py "c"))) (out result.2).
Proof.
  cbv zeta. split; [vm_compute; reflexivity|]. split.
  - unfold script.
    pose proof (organize_main_dry_run latin1_alnum ascii_lower None no_readme
                  (organize_argv true) eq_refl world_three_files) as H.
    unfold same_fs in H.
    by destruct (organize_main _ _ _ _ _ _) as [[?|[| | | | | |[]|]] ?].
  - vm_compute. tauto.
Qed.

(** ** Directories are never removed *)

Lemma keeps_dirs_refl w : keeps_dirs w w.
Proof. by intros q. Qed.

Lemma keeps_dirs_trans a b c : keeps_dirs a b -> keeps_dirs b c -> keeps_dirs a c.
Proof. intros H1 H2 q H. by apply H2, H1. Qed.

Lemma keeps_dirs_emit m : preserves keeps_dirs (emit m).
Proof. by intros w q. Qed.

Lemma keeps_dirs_update_fs op :
  (forall (fs fs' : FS), op fs = Ok fs' ->
     forall q : Path, is_dir fs q = true -> is_dir fs' q = true) ->
  preserves keeps_dirs (update_fs op).
Proof.
  intros Hop w. unfold update_fs. destruct (op (fs w)) as [fs'|] eqn:E.
  - intros q. by apply (Hop _ _ E).
  - apply keeps_dirs_refl.
Qed.

Lemma write_file_keeps_dirs (p : Path) (c : Content) (fs fs' : FS) :
  write_file p c fs = Ok fs' ->
  forall q : Path, is_dir fs q = true -> is_dir fs' q = true.
Proof.
  unfold write_file. destruct (node fs (parent p)) as [[]|]; [|done..].
  destruct (node fs p) as [[]|] eqn:Ep; [done| |];
    intros [= <-] q Hq; unfold is_dir in *;
    (rewrite node_insert_ne; [done|]); intros <-; by rewrite Ep in Hq.
Qed.

Lemma copy2_keeps_dirs (src dst : Path) (fs fs' : FS) :
  copy2 src dst fs = Ok fs' ->
  forall q : Path, is_dir fs q = true -> is_dir fs' q = true.
Proof.
  unfold copy2. destruct (node fs src) as [[|c]|]; [done| |done].
  destruct (bool_decide _); [done|]. apply write_file_keeps_dirs.
Qed.

Lemma move_keeps_dirs (src dst : Path) (fs fs' : FS) :
  move src dst fs = Ok fs' ->
  forall q : Path, is_dir fs q = true -> is_dir fs' q = true.
Proof.
  unfold move. destruct (is_dir fs dst && _); [done|].
  destruct (node fs src) as [[|c]|] eqn:Es; [done| |done].
  destruct (bool_decide _); [by intros [= <-]|].
  destruct (write_file (into fs src dst) c fs) as [fs1|] eqn:E; [|done].
  intros [= <-] q Hq. pose proof (write_file_keeps_dirs _ _ _ _ E q Hq) as Hq1.
  unfold is_dir, node in *. destruct (is_empty q) eqn:Eq; [done|].
  rewrite lookup_delete_ne; [done|]. intros <-.
  destruct (is_empty src); [done|]. by rewrite Es in Hq.
Qed.

Ltac keep_dirs :=
  repeat first
    [ apply keeps_dirs_update_fs;
      let H := fresh in
      let q := fresh in
      let Hq := fresh in
      intros ? ? H q Hq;
      first [ exact (mkdir_parents_keeps_dirs _ _ _ _ H Hq)
            | exact (write_file_keeps_dirs _ _ _ _ H q Hq)
            | exact (copy2_keeps_dirs _ _ _ _ H q Hq)
            | exact (move_keeps_dirs _ _ _ _ H q Hq) ]
    | keep_step keeps_dirs_refl keeps_dirs_trans ltac:(apply keeps_dirs_emit) ].

Lemma create_unique_subfolder_keeps_dirs base name :
  preserves keeps_dirs (create_unique_subfolder base name).
Proof.
  unfold create_unique_subfolder.
  apply (preserves_bind _ keeps_dirs_trans); [keep_dirs|]. intros fs0.
  destruct (subfolder_loop _ _ _ _ _ _); unfold ensure_directory; keep_dirs.
Qed.

(** X7: neither script removes a directory or turns it into a file: a
    folder, once allocated, stays occupied for the allocations that
    follow in the same run. *)
Lemma scripts_keep_directories uni_alnum lower env_google_api_key markdown gemini
    args argv :
  preserves keeps_dirs (generate_main lower env_google_api_key markdown args)
  /\ preserves keeps_dirs
       (organize_main uni_alnum lower env_google_api_key gemini argv).
Proof.
  split.
  - unfold generate_main, iter_files, process_file, write_readme, ensure_directory.
    repeat first [ apply create_unique_subfolder_keeps_dirs | progress keep_dirs ].
  - unfold organize_main, parse_args, process_files, process_one.
    keep_dirs. destruct (arg_move _); keep_dirs.
Qed.

(** * Further properties *)

(** ** Shape of a sanitized name *)

Lemma strip_head P s c t : strip P s = c :: t -> P c = false.
Proof.
  unfold strip. destruct (lstrip P s) as [|c' u] eqn:E; [done|].
  pose proof (lstrip_head _ _ _ _ E) as Hc.
  rewrite (rstrip_cons_keep _ _ _ Hc). by intros [= <- _].
Qed.

Lemma last_rev (v : Str) : last (rev v) = head v.
Proof. destruct v as [|a v]; [done|]. simpl. apply last_snoc. Qed.

Lemma strip_last P s c : last (strip P s) = Some c -> P c = false.
Proof.
  unfold strip, rstrip. rewrite last_rev.
  destruct (lstrip P (rev (lstrip P s))) as [|a v] eqn:E; [done|].
  intros [= <-]. by apply (lstrip_head _ _ _ _ E).
Qed.

Lemma strip_ends_id P (s : Str) :
  (forall c, head s = Some c -> P c = false) ->
  (forall c, last s = Some c -> P c = false) ->
  strip P s = s.
Proof.
  intros Hhead Hlast. unfold strip.
  assert (El : lstrip P s = s).
  { destruct s as [|c t]; [done|]. simpl. by rewrite (Hhead c). }
  rewrite El. unfold rstrip.
  assert (Er : lstrip P (rev s) = rev s).
  { destruct (rev s) as [|a v] eqn:E; [done|]. simpl.
    rewrite (Hlast a); [done|]. by rewrite <- (rev_involutive s), E, last_rev. }
  by rewrite Er, rev_involutive.
Qed.

Lemma collapse_dunder_id s : has_dunder s = false -> collapse_dunder s = s.
Proof.
  intros H. unfold collapse_dunder. destruct (length s); [done|].
  simpl. by rewrite H.
Qed.

(** X2: what [sanitize_for_dir_name] returns holds no two dashes in a
    row and neither begins nor ends with a dash, a dot or an
    underscore. *)
Theorem dir_name_shape (name : Str) :
  has_double chr_dash (sanitize_for_dir_name name) = false
  /\ (forall c, head (sanitize_for_dir_name name) = Some c ->
        dash_dot_underscore c = false)
  /\ (forall c, last (sanitize_for_dir_name name) = Some c ->
        dash_dot_underscore c = false).
Proof.
  unfold sanitize_for_dir_name.
  set (r := strip dash_dot_underscore (sub_dash_runs (sub_outside_class name))).
  assert (Hdbl : has_double chr_dash r = false)
    by apply strip_no_double, sub_dash_runs_no_double.
  assert (Hhead : forall c, head r = Some c -> dash_dot_underscore c = false).
  { intros c Hc. apply head_Some in Hc as [t Ht]. by apply (strip_head _ _ _ _ Ht). }
  assert (Hlast : forall c, last r = Some c -> dash_dot_underscore c = false)
    by (intros c; apply strip_last).
  destruct r as [|a r']; [|done].
  split; [reflexivity|]. split; intros c [= <-]; reflexivity.
Qed.

Section FolderNameShape.
Variable uni_alnum : N -> bool.

Lemma sanitize_folder_name_unfold name :
  name <> [] ->
  sanitize_folder_name uni_alnum name item
  = str_or (strip dot_underscore (strip isspace (collapse_dunder
      (List.map (fun ch => if keeps uni_alnum ch then ch else chr_underscore) name))))
      item.
Proof. by destruct name. Qed.

(** X3: what [sanitize_folder_name] returns holds no two underscores in
    a row and neither begins nor ends with a dot or an underscore. *)
Theorem folder_name_shape (name : Str) :
  has_dunder (sanitize_folder_name uni_alnum name item) = false
  /\ (forall c, head (sanitize_folder_name uni_alnum name item) = Some c ->
        dot_underscore c = false)
  /\ (forall c, last (sanitize_folder_name uni_alnum name item) = Some c ->
        dot_underscore c = false).
Proof.
  destruct name as [|a name].
  { split; [reflexivity|]. split; intros c [= <-]; reflexivity. }
  rewrite sanitize_folder_name_unfold by done.
  set (r := strip dot_underscore _).
  assert (Hdbl : has_dunder r = false)
    by (unfold has_dunder; do 2 apply strip_no_double; apply collapse_dunder_done).
  assert (Hhead : forall c, head r = Some c -> dot_underscore c = false).
  { intros c Hc. apply head_Some in Hc as [t Ht]. by apply (strip_head _ _ _ _ Ht). }
  assert (Hlast : forall c, last r = Some c -> dot_underscore c = false)
    by (intros c; apply strip_last).
  destruct r as [|b r']; [|done].
  split; [reflexivity|]. split; intros c [= <-]; reflexivity.
Qed.

(** X4: a second pass of [sanitize_folder_name] changes nothing
    whenever the first result neither begins nor ends with
    whitespace. *)
Theorem folder_name_sanitized_once (name : Str) :
  strip isspace (sanitize_folder_name uni_alnum name item)
    = sanitize_folder_name uni_alnum name item ->
  sanitize_folder_name uni_alnum (sanitize_folder_name uni_alnum name item) item
  = sanitize_folder_name uni_alnum name item.
Proof.
  destruct name as [|a name]; [reflexivity|].
  pose proof (sanitize_folder_name_kept uni_alnum (a :: name)) as Hkept.
  revert Hkept.
  rewrite (sanitize_folder_name_unfold (a :: name)) by done.
  set (r := strip dot_underscore _).
  assert (Hdbl : has_dunder r = false)
    by (unfold has_dunder; do 2 apply strip_no_double; apply collapse_dunder_done).
  assert (Hhead : forall c, head r = Some c -> dot_underscore c = false).
  { intros c Hc. apply head_Some in Hc as [t Ht]. by apply (strip_head _ _ _ _ Ht). }
  assert (Hlast : forall c, last r = Some c -> dot_underscore c = false)
    by (intros c; apply strip_last).
  revert Hdbl Hhead Hlast.
  destruct r as [|b r'] eqn:Er; [reflexivity|].
  change (str_or (b :: r') item) with (b :: r').
  intros Hdbl Hhead Hlast Hkept Hspace.
  rewrite sanitize_folder_name_unfold by done.
  assert (Emap : List.map (fun ch => if keeps uni_alnum ch then ch else chr_underscore)
                   (b :: r') = b :: r').
  { clear -Hkept. induction Hkept as [|c l Hc Hl IH]; [done|].
    simpl. by rewrite Hc, IH. }
  rewrite Emap, (collapse_dunder_id _ Hdbl), Hspace.
  by rewrite (strip_ends_id dot_underscore _ Hhead Hlast).
Qed.
End FolderNameShape.

Lemma folder_name_sanitized_once_witness :
  strip isspace (sanitize_folder_name latin1_alnum (py "my file (1)") item)
    = sanitize_folder_name latin1_alnum (py "my file (1)") item
  /\ sanitize_folder_name latin1_alnum
       (sanitize_folder_name latin1_alnum (py "my file (1)") item) item
     = py "my file _1".
Proof.
  split; [reflexivity|].
  rewrite (folder_name_sanitized_once latin1_alnum (py "my file (1)")); reflexivity.
Defined.

(** ** [ensure_directory] *)

Lemma mkdir_parents_new_prefix (rp : list Str) : forall (fs fs' : FS) (q : Path),
  mkdir_parents rp fs = Ok fs' ->
  node fs q = None -> node fs' q <> None -> q `prefix_of` rev rp.
Proof.
  assert (Hins : forall (fs : FS) (p q : Path),
            node fs q = None -> node (<[p := Dir]> fs) q <> None -> q = p).
  { intros fs p q Hq Hq'. destruct (decide (p = q)) as [->|Hne]; [done|].
    by rewrite node_insert_ne in Hq'. }
  induction rp as [|c rparent IH]; intros fs fs' q.
  - cbn [mkdir_parents rev]. unfold os_mkdir. rewrite node_root.
    unfold is_dir. rewrite node_root. intros [= <-] Hq Hq'. by rewrite Hq in Hq'.
  - cbn [mkdir_parents]. destruct (os_mkdir (rev (c :: rparent)) fs) as [fs1|e] eqn:E.
    + intros [= <-] Hq Hq'. apply os_mkdir_Ok in E as [_ ->].
      by rewrite (Hins _ _ _ Hq Hq').
    + destruct e;
        try (destruct (is_dir fs (rev (c :: rparent))); [|done];
             intros [= <-] Hq Hq'; by rewrite Hq in Hq').
      destruct (mkdir_parents rparent fs) as [fs1|e1] eqn:E1; [|done].
      intros [(_ & ->) | (_ & ->)]%mkdir_exist_ok_Ok Hq Hq'.
      * destruct (node fs1 q) eqn:E1q.
        -- simpl. apply prefix_app_r. apply (IH _ _ _ E1 Hq). by rewrite E1q.
        -- by rewrite (Hins _ _ _ E1q Hq').
      * simpl. apply prefix_app_r. by apply (IH _ _ _ E1 Hq).
Qed.

(** X5: when [ensure_directory] returns, the path is a directory,
    nothing is printed, whatever existed is as it was, and whatever is
    new is a directory on the way to the path. *)
Theorem ensure_directory_effect (path : Path) (w w' : World) :
  ensure_directory path w = (Ok tt, w') ->
  out w' = out w
  /\ is_dir (fs w') path = true
  /\ (forall q, path_exists (fs w) q = true -> node (fs w') q = node (fs w) q)
  /\ (forall q, path_exists (fs w) q = false -> path_exists (fs w') q = true ->
        is_dir (fs w') q = true /\ q `prefix_of` path).
Proof.
  unfold ensure_directory, update_fs.
  destruct (mkdir_parents (rev path) (fs w)) as [fs'|] eqn:E; [|done].
  intros [= <-]. cbn [fs out].
  destruct (mkdir_parents_Ok _ _ _ E) as (Hdir & Hold & Hnew).
  rewrite rev_involutive in Hdir.
  split; [done|]. split; [done|]. split.
  - intros q Hq. apply Hold. unfold path_exists in Hq. by destruct (node (fs w) q).
  - intros q Hq Hq'.
    assert (Hnone : node (fs w) q = None)
      by (unfold path_exists in Hq; by destruct (node (fs w) q)).
    split.
    + unfold is_dir. destruct (Hnew q Hnone) as [H|[H _]]; [|by rewrite H].
      unfold path_exists in Hq'. by rewrite H in Hq'.
    + rewrite <- (rev_involutive path).
      apply (mkdir_parents_new_prefix _ _ _ _ E Hnone).
      unfold path_exists in Hq'. by destruct (node fs' q).
Qed.

Lemma ensure_directory_effect_witness :
  ensure_directory [py "a"; py "b"] world_out
    = (Ok tt, {| fs := <[ [py "a"; py "b"] := Dir ]> (<[ [py "a"] := Dir ]> (fs world_out));
                 out := [] |})
  /\ is_dir (<[ [py "a"; py "b"] := Dir ]> (<[ [py "a"] := Dir ]> (fs world_out)))
       [py "a"; py "b"] = true.
Proof.
  assert (E : ensure_directory [py "a"; py "b"] world_out
              = (Ok tt, {| fs := <[ [py "a"; py "b"] := Dir ]>
                                   (<[ [py "a"] := Dir ]> (fs world_out));
                           out := [] |})) by reflexivity.
  split; [exact E|].
  exact (proj1 (proj2 (ensure_directory_effect _ _ _ E))).
Defined.

(** X6: on a directory that exists [ensure_directory] changes nothing
    and does not raise; on a regular file it raises [FileExistsError]
    and changes nothing. *)
Theorem ensure_directory_existing (path : Path) (w : World) :
  (is_dir (fs w) path = true -> ensure_directory path w = (Ok tt, w))
  /\ (is_file (fs w) path = true ->
      ensure_directory path w = (Raise FileExistsError, w)).
Proof.
  unfold ensure_directory, update_fs. split.
  - intros Hd. rewrite mkdir_parents_is_dir by (by rewrite rev_involutive).
    by destruct w.
  - intros Hf.
    assert (E : os_mkdir path (fs w) = Raise FileExistsError).
    { unfold os_mkdir. unfold is_file in Hf. by destruct (node (fs w) path). }
    assert (Hd : is_dir (fs w) path = false).
    { unfold is_dir. unfold is_file in Hf. by destruct (node (fs w) path) as [[]|]. }
    destruct (rev path) as [|c rp] eqn:Erev; cbn [mkdir_parents];
      rewrite <- Erev, rev_involutive, E, Hd; done.
Qed.

Lemma ensure_directory_existing_witness :
  is_dir (fs world_three_files) in_dir = true
  /\ ensure_directory in_dir world_three_files = (Ok tt, world_three_files)
  /\ is_file (fs world_three_files) (child in_dir (py "a.txt")) = true
  /\ ensure_directory (child in_dir (py "a.txt")) world_three_files
     = (Raise FileExistsError, world_three_files).
Proof.
  pose proof (ensure_directory_existing in_dir world_three_files) as [Hd _].
  pose proof (ensure_directory_existing (child in_dir (py "a.txt")) world_three_files)
    as [_ Hf].
  split; [reflexivity|]. split; [apply Hd; reflexivity|].
  split; [reflexivity|]. apply Hf; reflexivity.
Defined.

(** ** Dry runs, in general *)

Section DryRunInGeneral.
Variable uni_alnum : N -> bool.
Variable lower : Str -> Str.
Variable env_google_api_key : option Str.
Variable markdown : FS -> Path -> Str -> Str -> option Str.
Variable gemini : FS -> Path -> Str -> Str -> Str.

(** X8: with [--dry-run], organize_with_gemini.py leaves the filesystem
    exactly as it found it, whatever the other flags and whatever the
    outcome. *)
Theorem organize_dry_run_writes_nothing (argv : Argv) (w : World) :
  arg_dry_run argv = true ->
  fs (script (organize_main uni_alnum lower env_google_api_key gemini argv) w).2 = fs w.
Proof.
  intros Hdry. pose proof (organize_main_dry_run uni_alnum lower env_google_api_key
                             gemini argv Hdry w) as H.
  unfold same_fs in H. unfold script.
  by destruct (organize_main _ _ _ _ _ _) as [[?|[| | | | | |[]|]] ?].
Qed.

(** X9: with [dry_run], [process_file] of generate_folders.py changes
    the filesystem in one way only: the folder of the file is made
    (after the output root, when that was missing). *)
Theorem process_file_dry_run_makes_folder (file_path output_dir : Path)
    (copy_original use_ai : bool) (model_name : Str) (api_key : option Str)
    (max_bytes : N) (w : World) :
  root_available (fs w) output_dir = true ->
  exists p fs0,
    mkdir_parents (rev output_dir) (fs w) = Ok fs0
    /\ path_exists (fs w) p = false
    /\ fs (process_file markdown file_path output_dir copy_original use_ai
             model_name api_key max_bytes true w).2
       = <[p := Dir]> fs0.
Proof.
  intros Hroot. unfold root_available in Hroot.
  destruct (mkdir_parents (rev output_dir) (fs w)) as [fs0|] eqn:E; [|done].
  destruct (process_file_dry_run markdown file_path output_dir copy_original use_ai
              model_name api_key max_bytes w fs0 E) as (p & Hfree & Hfs).
  by exists p, fs0.
Qed.
End DryRunInGeneral.

Lemma organize_dry_run_writes_nothing_witness :
  arg_dry_run (organize_argv true) = true
  /\ fs (script (organize_main latin1_alnum ascii_lower None no_readme
                   (organize_argv true)) world_three_files).2
     = fs world_three_files.
Proof.
  split; [reflexivity|].
  by apply (organize_dry_run_writes_nothing latin1_alnum ascii_lower None no_readme).
Defined.

Lemma process_file_dry_run_makes_folder_witness :
  root_available (fs world_three_files) out_dir = true
  /\ exists p fs0,
       mkdir_parents (rev out_dir) (fs world_three_files) = Ok fs0
       /\ path_exists (fs world_three_files) p = false
       /\ fs (process_file no_markdown (child in_dir (py "a.txt")) out_dir true false
                [] None 10 true world_three_files).2
          = <[p := Dir]> fs0.
Proof.
  split; [reflexivity|].
  by apply (process_file_dry_run_makes_folder no_markdown).
Defined.

(** ** Selection, further *)

Lemma List_filter_sublist {A} (f : A -> bool) (l : list A) :
  List.filter f l `sublist_of` l.
Proof.
  induction l as [|x l IH]; [constructor|].
  simpl. destruct (f x); by constructor.
Qed.

Lemma List_filter_all {A} (f : A -> bool) (l : list A) :
  (forall x, f x = true) -> List.filter f l = l.
Proof.
  intros Hf. induction l as [|x l IH]; [done|]. simpl. by rewrite Hf, IH.
Qed.

(** X10: [filter_files] only drops files: what it returns is its input
    with some files left out, in the same order; with no include and no
    exclude extension it returns its input. *)
Theorem filter_files_sublist (lower : Str -> Str) (files : list Path)
    (include_ext exclude_ext : option (list Str)) :
  filter_files lower files include_ext exclude_ext `sublist_of` files
  /\ (nonempty_list include_ext = false -> nonempty_list exclude_ext = false ->
      filter_files lower files include_ext exclude_ext = files).
Proof.
  rewrite filter_files_filter. split.
  - etrans; apply List_filter_sublist.
  - intros Hinc Hexc. rewrite Hinc. cbn [negb orb].
    rewrite (List_filter_all (fun _ => true)) by done.
    apply List_filter_all. intros f.
    destruct exclude_ext as [[|e l]|]; [| done |]; cbn [default List.map];
      by rewrite bool_decide_eq_false_2 by apply not_elem_of_nil.
Qed.

Lemma filter_files_sublist_witness :
  nonempty_list (Some ([] : list Str)) = false
  /\ filter_files ascii_lower [child in_dir (py "a.txt"); child in_dir (py "b")]
       (Some []) None
     = [child in_dir (py "a.txt"); child in_dir (py "b")].
Proof.
  split; [reflexivity|].
  by apply (filter_files_sublist ascii_lower).
Defined.

Lemma starts_with_dot (e : Str) :
  starts_with [chr_dot] e = true -> exists t, e = chr_dot :: t.
Proof.
  destruct e as [|c t]; [done|]. cbn [starts_with]. rewrite andb_true_r.
  intros H. apply N.eqb_eq in H. subst c. by exists t.
Qed.

(** X11: every extension [normalize_exts] returns begins with a dot,
    and the list it returns is never empty: a list with nothing left is
    turned into [None]. *)
Theorem normalize_exts_dotted (lower : Str -> Str) (exts : option (list Str))
    (normalized : list Str) :
  normalize_exts lower exts = Some normalized ->
  normalized <> []
  /\ Forall (fun e => exists t, e = chr_dot :: t) normalized.
Proof.
  unfold normalize_exts. destruct exts as [exts|]; [|done].
  destruct (omap (normalize_ext lower) exts) as [|x l] eqn:E; [done|].
  intros [= <-]. split; [done|]. rewrite <- E.
  apply Forall_forall. intros e He.
  apply list_elem_of_omap in He as (raw & _ & Hn).
  unfold normalize_ext in Hn. destruct (is_empty raw); [done|].
  destruct (is_empty (lower (strip isspace raw))); [done|].
  destruct (starts_with [chr_dot] (lower (strip isspace raw))) eqn:Ed;
    injection Hn as <-; [by apply starts_with_dot | by eexists].
Qed.

Lemma normalize_exts_dotted_witness :
  normalize_exts ascii_lower (Some [py " PY "; py ".Md"; py "  "])
    = Some [py ".py"; py ".md"]
  /\ Forall (fun e => exists t, e = chr_dot :: t) [py ".py"; py ".md"].
Proof.
  assert (E : normalize_exts ascii_lower (Some [py " PY "; py ".Md"; py "  "])
              = Some [py ".py"; py ".md"]) by reflexivity.
  split; [exact E|]. exact (proj2 (normalize_exts_dotted _ _ _ E)).
Defined.

(** X12: the entries [parse_ext_list] returns are not empty and carry
    no whitespace at either end. *)
Theorem parse_ext_list_entries (value : option Str) (parts : list Str) :
  parse_ext_list value = Some parts ->
  Forall (fun p => p <> [] /\ strip isspace p = p) parts.
Proof.
  unfold parse_ext_list. destruct value as [[|c v]|]; [done| |done].
  intros [= <-]. apply Forall_forall. intros p Hp.
  apply list_elem_of_In, filter_In in Hp as [Hp Hne].
  apply in_map_iff in Hp as (raw & <- & _).
  split; [by destruct (strip isspace raw) | apply strip_strip].
Qed.

Lemma parse_ext_list_entries_witness :
  parse_ext_list (Some (py " .py, md ,,")) = Some [py ".py"; py "md"]
  /\ Forall (fun p => p <> [] /\ strip isspace p = p) [py ".py"; py "md"].
Proof.
  assert (E : parse_ext_list (Some (py " .py, md ,,")) = Some [py ".py"; py "md"])
    by reflexivity.
  split; [exact E|]. exact (parse_ext_list_entries _ _ E).
Defined.

(** ** groups_file.py: when an upload counts as sent *)

(** X14: [send_file] returns [True] exactly when the size could be
    read and is at most the ceiling, the file could be opened and
    [send_document] raised nothing; and [send_document] is awaited
    exactly when the first two of these hold. *)
Theorem send_file_true_iff (remote : Remote) :
  ((send_file remote).1 = true
   <-> exists file_size,
         getsize remote = inr file_size /\ file_size <= max_size
         /\ open_rb remote = None /\ send_document remote = None)
  /\ (In SendDocument (send_file remote).2
      <-> exists file_size,
            getsize remote = inr file_size /\ file_size <= max_size
            /\ open_rb remote = None).
Proof.
  assert (Hno : forall e, send_file_except e <> SendDocument).
  { intros [|text| |]; cbn [send_file_except]; try done.
    by repeat destruct (contains _ _). }
  unfold send_file. destruct (getsize remote) as [e|file_size].
  - split.
    + split; [done | by intros (? & ? & _)].
    + split; [intros [H|[]]; by apply Hno in H | by intros (? & ? & _)].
  - destruct (max_size <? file_size) eqn:Esize.
    + apply N.ltb_lt in Esize. split.
      * split; [done | intros (? & [= <-] & ? & _); lia].
      * split; [by intros [H|[]] | intros (? & [= <-] & ? & _); lia].
    + apply N.ltb_ge in Esize. destruct (open_rb remote) as [e|].
      * split.
        -- split; [done | by intros (? & _ & _ & ? & _)].
        -- split; [|by intros (? & _ & _ & ?)].
           intros [H|[H|[]]]; [done | by apply Hno in H].
      * destruct (send_document remote) as [e|].
        -- split.
           ++ split; [done | by intros (? & _ & _ & _ & ?)].
           ++ split; [intros _; by exists file_size | intros _; simpl; tauto].
        -- split.
           ++ split; [intros _; by exists file_size | done].
           ++ split; [intros _; by exists file_size | intros _; simpl; tauto].
Qed.

(** ** organize_with_gemini.py: the two counters *)

Lemma returns_bind_with {A B} (Q : A -> Prop) (P : B -> Prop) (m : M A) (k : A -> M B) :
  returns Q m -> (forall a, Q a -> returns P (k a)) -> returns P (bind m k).
Proof.
  intros Hm Hk w b w'. unfold bind. destruct (m w) as [[a|e] w1] eqn:E; [|done].
  apply Hk. by apply (Hm _ _ _ E).
Qed.

Lemma insert_by_key_length key p l :
  length (insert_by_key key p l) = S (length l).
Proof.
  induction l as [|q l IH]; [done|]. simpl.
  destruct (str_ltb (key q) (key p)); simpl; by rewrite ?IH.
Qed.

Lemma sort_by_key_length key l : length (sort_by_key key l) = length l.
Proof.
  induction l as [|p l IH]; [done|].
  simpl. by rewrite insert_by_key_length, IH.
Qed.

Section Counters.
Variable uni_alnum : N -> bool.
Variable lower : Str -> Str.
Variable env_google_api_key : option Str.
Variable gemini : FS -> Path -> Str -> Str -> Str.

Lemma process_one_counts output_dir include_exts exclude_exts move_files do_ai
    api_key model_name readme_filename overwrite dry_run file_path counts :
  returns (one_turn do_ai api_key counts)
    (process_one uni_alnum lower gemini output_dir include_exts exclude_exts
       move_files do_ai api_key model_name readme_filename overwrite dry_run
       file_path counts).
Proof.
  assert (Hsame : one_turn do_ai api_key counts counts)
    by (unfold one_turn; repeat split; lia).
  unfold process_one.
  destruct (nonempty_list include_exts && _).
  { apply returns_bind. intros _. by apply returns_ret. }
  destruct (nonempty_list exclude_exts && _).
  { apply returns_bind. intros _. by apply returns_ret. }
  apply returns_bind. intros dest_dir. apply returns_bind. intros fs0.
  destruct (path_exists fs0 dest_dir && negb overwrite).
  { apply returns_bind. intros _. by apply returns_ret. }
  do 5 (apply returns_bind; intros ?).
  apply (returns_bind_with
           (fun g => (g <= 1)%nat /\ (do_ai = false \/ truthy api_key = false -> g = 0%nat))).
  - destruct (path_exists _ _ && negb overwrite).
    { apply returns_bind. intros _. apply returns_ret. split; [lia | done]. }
    apply (returns_bind_with
             (fun written : Content * nat =>
                (written.2 <= 1)%nat
                /\ (do_ai = false \/ truthy api_key = false -> written.2 = 0%nat))).
    + destruct api_key as [[|c key]|].
      * apply returns_ret. split; [simpl; lia | done].
      * destruct do_ai.
        -- apply returns_bind. intros _.
           destruct (is_empty _); apply returns_ret; (split; [simpl; lia|]);
             by intros [?|?].
        -- apply returns_ret. split; [simpl; lia | done].
      * apply returns_ret. split; [simpl; lia | done].
    + intros written Hw. do 2 (apply returns_bind; intros ?). by apply returns_ret.
  - intros g [Hg Hoff]. apply returns_ret. unfold one_turn. cbn [fst snd].
    repeat split; try lia. intros H. rewrite (Hoff H). lia.
Qed.

Lemma process_loop_counts body do_ai api_key files :
  (forall f c, returns (one_turn do_ai api_key c) (body f c)) ->
  forall counts,
    returns (fun after =>
               (after.1 <= counts.1 + length files)%nat
               /\ (after.2 + counts.1 <= counts.2 + after.1)%nat
               /\ (do_ai = false \/ truthy api_key = false -> after.2 = counts.2))
      (process_loop body files counts).
Proof.
  intros Hbody. induction files as [|f files IH]; intros counts.
  - apply returns_ret. repeat split; simpl; lia.
  - cbn [process_loop]. eapply returns_bind_with; [apply Hbody|].
    intros c (Hc1 & Hc2 & Hc3 & Hc4) w after w' Hrun.
    destruct (IH c w after w' Hrun) as (H1 & H2 & H3).
    repeat split; [simpl; lia | lia |].
    intros H. rewrite (H3 H), (Hc4 H). done.
Qed.

(** X13: of the two numbers [process_files] returns, the second
    (READMEs generated) is at most the first (files processed), which is
    at most the number of regular files in the source directory; and
    nothing is counted as generated when generation is switched off or
    no key is set. *)
Theorem process_files_counts (source_dir output_dir : Path)
    (include_exts exclude_exts : option (list Str)) (move_files do_ai : bool)
    (model_name readme_filename : Str) (overwrite dry_run : bool)
    (w w' : World) (processed ai_generated : nat) :
  process_files uni_alnum lower env_google_api_key gemini source_dir output_dir
    include_exts exclude_exts move_files do_ai model_name readme_filename
    overwrite dry_run w = (Ok (processed, ai_generated), w') ->
  (ai_generated <= processed)%nat
  /\ (exists listed,
        iterdir_files source_dir w = (Ok listed, w)
        /\ (processed <= length listed)%nat)
  /\ (do_ai = false \/ truthy env_google_api_key = false -> ai_generated = 0%nat).
Proof.
  unfold process_files. unfold bind at 1.
  assert (Hw : (iterdir_files source_dir w).2 = w)
    by (unfold iterdir_files; by destruct (iterdir _ _)).
  destruct (iterdir_files source_dir w) as [[listed|e] w1] eqn:El; [|done].
  cbn [snd] in Hw. subst w1.
  set (api_key := if do_ai then resolve_api_key env_google_api_key else None).
  unfold bind at 1.
  destruct (do_ai && negb (truthy api_key)) eqn:Eswitch.
  - unfold bind at 1. cbn [emit ret]. intros Hrun.
    apply (process_loop_counts _ false api_key) in Hrun
      as (H1 & H2 & H3); [|intros f c; apply process_one_counts].
    cbn [fst snd] in *. rewrite sort_by_key_length in H1.
    split; [lia|]. split; [exists listed; split; [done | lia]|].
    intros _. apply H3. by left.
  - cbn [ret]. intros Hrun.
    apply (process_loop_counts _ do_ai api_key) in Hrun
      as (H1 & H2 & H3); [|intros f c; apply process_one_counts].
    cbn [fst snd] in *. rewrite sort_by_key_length in H1.
    split; [lia|]. split; [exists listed; split; [done | lia]|].
    intros Hoff. apply H3. destruct Hoff as [->|Hkey]; [by left|].
    destruct do_ai; [|by left]. right. exact Hkey.
Qed.
End Counters.

Lemma process_files_counts_witness :
  (process_files latin1_alnum ascii_lower None no_readme in_dir out_dir
     (Some [py "txt"]) None false false [] README_md false true world_three_files).1
  = Ok (2, 0)%nat
  /\ (0 <= 2)%nat.
Proof.
  assert (Hres : (process_files latin1_alnum ascii_lower None no_readme in_dir out_dir
                    (Some [py "txt"]) None false false [] README_md false true
                    world_three_files).1 = Ok (2, 0)%nat)
    by (vm_compute; reflexivity).
  split; [exact Hres|].
  destruct (process_files latin1_alnum ascii_lower None no_readme in_dir out_dir
              (Some [py "txt"]) None false false [] README_md false true
              world_three_files) as [res w'] eqn:E.
  cbn [fst] in Hres. subst res.
  exact (proj1 (process_files_counts latin1_alnum ascii_lower None no_readme _ _ _ _ _ _
                  _ _ _ _ _ _ _ _ E)).
Defined.

(** ** generate_folders.py: what [process_file] leaves behind *)








(** *** Well-formed trees *)














Section ProcessFileEffect.
Variable markdown : FS -> Path -> Str -> Str -> option Str.


End ProcessFileEffect.


(** ** organize_with_gemini.py: what one turn of [process_files] leaves behind *)





Section ProcessOneEffect.
Variable uni_alnum : N -> bool.
Variable lower : Str -> Str.
Variable gemini : FS -> Path -> Str -> Str -> Str.



End ProcessOneEffect.


(** ** groups_file.py: the batch upload *)

Lemma send_loop_counts (files : list Found) : forall successful failed : nat,
  let sent := send_loop files successful failed in
  (sent.2.1 + sent.2.2 = successful + failed + length files)%nat
  /\ sent.2.1
     = (successful
        + length (List.filter
                    (fun f => found_isfile f && (send_file (found_remote f)).1)
                    files))%nat.
Proof.
  induction files as [|f files IH]; intros successful failed; cbn zeta.
  - cbn. lia.
  - cbn [send_loop List.filter length].
    destruct (found_isfile f); cbn [andb].
    + destruct (send_file (found_remote f)) as [[] events]; cbn [fst snd].
      * destruct (IH (S successful) failed) as [H1 H2]. cbn zeta in H1, H2.
        cbn [length]. lia.
      * destruct (IH successful (S failed)) as [H1 H2]. cbn zeta in H1, H2. lia.
    + destruct (IH successful (S failed)) as [H1 H2]. cbn zeta in H1, H2.
      cbn [fst snd]. lia.
Qed.

(** X17: when the chat is accessible and the pattern matched
    something, [send_file_to_chat] ends on a summary whose two numbers add
    up to the number of paths found; the first is the number of regular
    files whose [send_file] returned [True], in particular a path that is
    not a regular file counts as failed. *)
Theorem send_file_to_chat_summary (files : list Found) (title : option Str) :
  files <> [] ->
  exists (printed : list ChatEvent) (successful failed : nat),
    send_file_to_chat files (inr title)
    = inr (printed ++ [PrintSummaryTitle; PrintSuccessfullySent successful;
                       PrintFailedToSend failed])
    /\ (successful + failed = length files)%nat
    /\ successful
       = length (List.filter
                   (fun f => found_isfile f && (send_file (found_remote f)).1)
                   files).
Proof.
  intros Hfiles. destruct (send_loop_counts files 0 0) as [Hsum Hok].
  cbn zeta in Hsum, Hok.
  exists (PrintFoundFiles (List.map found_path files)
          :: PrintChatVerified title :: (send_loop files 0 0).1),
    (send_loop files 0 0).2.1, (send_loop files 0 0).2.2.
  split; [|split; [lia|lia]].
  unfold send_file_to_chat, verify_chat_access.
  destruct files; [done|]. cbn [is_empty]. cbn [app]. done.
Qed.

Lemma send_file_to_chat_summary_witness :
  exists (printed : list ChatEvent) (successful failed : nat),
    send_file_to_chat
      [ {| found_path := py "a.zip"; found_isfile := true;
           found_remote := {| getsize := inr 10; open_rb := None;
                              send_document := None |} |};
        {| found_path := py "b.zip"; found_isfile := false;
           found_remote := {| getsize := inr 10; open_rb := None;
                              send_document := None |} |} ]
      (inr None)
    = inr (printed ++ [PrintSummaryTitle; PrintSuccessfullySent successful;
                       PrintFailedToSend failed])
    /\ (successful + failed = 2)%nat
    /\ successful = 1%nat.
Proof.
  apply (send_file_to_chat_summary
           [ {| found_path := py "a.zip"; found_isfile := true;
                found_remote := {| getsize := inr 10; open_rb := None;
                                   send_document := None |} |};
             {| found_path := py "b.zip"; found_isfile := false;
                found_remote := {| getsize := inr 10; open_rb := None;
                                   send_document := None |} |} ] None).
  discriminate.
Defined.

(** ** groups_file.py: the groups and their files *)

Lemma dict_lookup_set {V} (key key' : Z) (value : V) (d : list (Z * V)) :
  dict_lookup key (dict_set key' value d)
  = if bool_decide (key' = key) then Some value else dict_lookup key d.
Proof.
  induction d as [|[k v] d IH]; cbn [dict_set dict_lookup].
  - done.
  - destruct (bool_decide_reflect (k = key')) as [->|Hk]; cbn [dict_lookup].
    + by destruct (bool_decide (key' = key)).
    + rewrite IH. destruct (bool_decide_reflect (k = key)) as [->|Hk'].
      * by rewrite bool_decide_eq_false_2 by congruence.
      * done.
Qed.

Lemma dict_set_keys {V} (key : Z) (value : V) (d : list (Z * V)) (k : Z) :
  k ∈ (dict_set key value d).*1 <-> k = key \/ k ∈ d.*1.
Proof.
  induction d as [|[k' v] d IH]; cbn [dict_set fmap list_fmap].
  - rewrite list_elem_of_singleton. cbn.
    split; [tauto|]. intros [?|Hin]; [done|]. by apply elem_of_nil in Hin.
  - destruct (bool_decide_reflect (k' = key)) as [->|Hk];
      cbn [fmap list_fmap fst]; rewrite !elem_of_cons.
    + tauto.
    + cbn [fmap] in IH. rewrite IH. tauto.
Qed.

Lemma dict_set_NoDup {V} (key : Z) (value : V) (d : list (Z * V)) :
  NoDup d.*1 -> NoDup (dict_set key value d).*1.
Proof.
  induction d as [|[k' v] d IH]; cbn [dict_set fmap list_fmap]; intros Hd.
  - apply NoDup_singleton.
  - apply NoDup_cons in Hd as [Hk' Hd].
    destruct (bool_decide_reflect (k' = key)) as [->|Hk]; cbn [fmap list_fmap fst].
    + by apply NoDup_cons.
    + apply NoDup_cons. split; [|by apply IH].
      intros Hin. apply dict_set_keys in Hin as [?|?]; [congruence|done].
Qed.

Lemma groups_loop_NoDup (updates : list Update) : forall groups : list (Z * Json),
  NoDup groups.*1 -> NoDup (groups_loop updates groups).*1.
Proof.
  induction updates as [|u updates IH]; intros groups Hd; cbn [groups_loop]; [done|].
  destruct (message u) as [m|]; [|by apply IH].
  destruct (is_group_type (chat_type (chat m))); [|by apply IH].
  by apply IH, dict_set_NoDup.
Qed.

Lemma groups_loop_lookup (id : Z) (updates : list Update) :
  forall groups : list (Z * Json),
  dict_lookup id (groups_loop updates groups)
  = match last_group id updates with
    | Some c => Some (group_info c)
    | None => dict_lookup id groups
    end.
Proof.
  induction updates as [|u updates IH]; intros groups;
    cbn [groups_loop last_group]; [done|].
  destruct (message u) as [m|]; [|rewrite IH; by destruct (last_group id updates)].
  destruct (is_group_type (chat_type (chat m))); cbn [andb];
    [|rewrite IH; by destruct (last_group id updates)].
  rewrite IH. destruct (last_group id updates); [done|].
  rewrite dict_lookup_set. by destruct (bool_decide _).
Qed.

(** X18: when [bot.get_updates] answers, [get_all_groups] returns one
    entry per chat identifier, and the entry of an identifier is the
    description of the chat of the last message that came from a group,
    supergroup or channel with that identifier: a chat of another type
    is never listed. *)
Theorem get_all_groups_last (updates : list Update) :
  exists groups : list (Z * Json),
    get_all_groups (inr updates) = inr (groups, [LogFoundGroups (length groups)])
    /\ NoDup groups.*1
    /\ forall id : Z,
         dict_lookup id groups = group_info <$> last_group id updates.
Proof.
  exists (groups_loop updates []). split; [done|]. split.
  - apply groups_loop_NoDup. constructor.
  - intros id. rewrite groups_loop_lookup. by destruct (last_group id updates).
Qed.

Section CollectorsProperties.
Variable isoformat : Z -> Str.

Lemma files_loop_media (file : Message -> list (Str * Json)) (id : Z)
    (updates : list Update) : forall files : list Json,
  files_loop isoformat file id updates files
  = files ++ List.map (fun m => file_info isoformat m (file m))
               (media_messages id updates).
Proof.
  induction updates as [|u updates IH]; intros files;
    cbn [files_loop media_messages omap list_omap].
  - by rewrite app_nil_r.
  - fold (media_messages id updates).
    destruct (message u) as [m|]; [|apply IH].
    destruct (bool_decide (chat_id (chat m) = id) && has_media m); [|apply IH].
    rewrite IH. cbn [List.map]. by rewrite <- app_assoc.
Qed.

Lemma media_messages_has_media (id : Z) (updates : list Update) (m : Message) :
  m ∈ media_messages id updates -> chat_id (chat m) = id /\ has_media m = true.
Proof.
  unfold media_messages. rewrite list_elem_of_omap. intros (u & _ & Hu).
  destruct (message u) as [m'|]; [|done].
  destruct (bool_decide_reflect (chat_id (chat m') = id)) as [Hid|]; [|done].
  destruct (has_media m') eqn:Hm; [|done]. cbn in Hu. by simplify_eq.
Qed.

Lemma chat_file_typed (m : Message) :
  has_media m = true ->
  exists t : Str,
    file_type (file_info isoformat m (chat_file m)) = Some (JStr t)
    /\ t ∈ media_types.
Proof.
  destruct m as [mid d u c ch doc ph vid aud voi note]. unfold has_media. cbn.
  unfold media_types.
  destruct doc; [eexists; split; [vm_compute; reflexivity | set_solver]|].
  destruct ph; [|eexists; split; [vm_compute; reflexivity | set_solver]].
  destruct vid; [eexists; split; [vm_compute; reflexivity | set_solver]|].
  destruct aud; [eexists; split; [vm_compute; reflexivity | set_solver]|].
  destruct voi; [eexists; split; [vm_compute; reflexivity | set_solver]|].
  destruct note; [eexists; split; [vm_compute; reflexivity | set_solver]|].
  done.
Qed.

(** X19: when [bot.get_updates] answers, [get_chat_files_from_updates]
    of groups_file.py lists, in their order, the messages of the chat
    that carry a file, one entry each, and the [file] of every entry
    has one of the six types. *)
Theorem get_chat_files_typed (id : Z) (updates : list Update) :
  exists files : list Json,
    get_chat_files_from_updates isoformat id (inr updates)
    = inr (files, [LogFoundFiles (length files) id])
    /\ files = List.map (fun m => file_info isoformat m (chat_file m))
                 (media_messages id updates)
    /\ Forall (fun entry => exists t : Str,
                 file_type entry = Some (JStr t) /\ t ∈ media_types) files.
Proof.
  exists (files_loop isoformat chat_file id updates []).
  split; [done|]. rewrite files_loop_media. cbn [app]. split; [done|].
  apply Forall_forall. intros entry Hin. apply list_elem_of_In in Hin.
  apply in_map_iff in Hin as (m & <- & Hm). apply list_elem_of_In in Hm.
  apply chat_file_typed. by apply media_messages_has_media in Hm as [_ ?].
Qed.

(** X20: [get_recent_files] of join_group.py lists a message of the
    chat that carries a voice message or a video note and nothing else
    with an empty [file]: its chain of types stops after [audio]. *)
Theorem get_recent_files_untyped (id : Z) (updates : list Update) (m : Message) :
  Some m ∈ List.map message updates ->
  chat_id (chat m) = id ->
  has_media m = true ->
  document m = None -> photo m = [] -> video m = None -> audio m = None ->
  exists files : list Json,
    get_recent_files isoformat id (inr updates)
    = inr (files, [LogFoundRecentFiles (length files) id])
    /\ file_info isoformat m [] ∈ files
    /\ file_type (file_info isoformat m []) = None.
Proof.
  intros Hin Hid Hmedia Hdoc Hphoto Hvideo Haudio.
  exists (files_loop isoformat recent_file id updates []).
  split; [done|]. split; [|by vm_compute].
  rewrite files_loop_media. cbn [app].
  assert (Hfile : recent_file m = []) by (unfold recent_file;
    by rewrite Hdoc, Hphoto, Hvideo, Haudio).
  rewrite <- Hfile. apply list_elem_of_In, in_map_iff. exists m. split; [done|].
  apply list_elem_of_In. unfold media_messages. apply list_elem_of_omap.
  apply list_elem_of_In, in_map_iff in Hin as (u & Hu & Hin).
  exists u. split; [by apply list_elem_of_In|].
  rewrite Hu, Hmedia. by rewrite bool_decide_eq_true_2.
Qed.
End CollectorsProperties.

Lemma get_recent_files_untyped_witness :
  Some voice_message ∈ List.map message [ {| message := None |};
                                          {| message := Some voice_message |} ]
  /\ has_media voice_message = true
  /\ exists files : list Json,
       get_recent_files (fun _ => py "2023-11-14T22:13:20") (-1002903482939)
         (inr [ {| message := None |}; {| message := Some voice_message |} ])
       = inr (files, [LogFoundRecentFiles (length files) (-1002903482939)])
       /\ file_info (fun _ => py "2023-11-14T22:13:20") voice_message [] ∈ files
       /\ file_type (file_info (fun _ => py "2023-11-14T22:13:20") voice_message [])
          = None.
Proof.
  assert (Hin : Some voice_message
                ∈ List.map message [ {| message := None |};
                                     {| message := Some voice_message |} ])
    by (cbn; apply list_elem_of_further, list_elem_of_here).
  split; [exact Hin|]. split; [reflexivity|].
  apply (get_recent_files_untyped (fun _ => py "2023-11-14T22:13:20")
           (-1002903482939)
           [ {| message := None |}; {| message := Some voice_message |} ]
           voice_message Hin);
    reflexivity.
Defined.

(** ** join_group.py: the list of groups *)

Lemma group_lines_filter (lines : list Str) : forall groups : list Str,
  group_lines lines groups
  = groups ++ List.filter
                (fun line => negb (is_empty line) && negb (starts_with (py "#") line))
                (List.map (strip isspace) lines).
Proof.
  induction lines as [|line lines IH]; intros groups;
    cbn [group_lines List.map List.filter].
  - by rewrite app_nil_r.
  - destruct (negb (is_empty (strip isspace line))
              && negb (starts_with (py "#") (strip isspace line))); [|apply IH].
    rewrite IH. by rewrite <- app_assoc.
Qed.

(** X21: every identifier [read_group_list] returns is a line of the
    file without its surrounding white space, is not empty and does not
    start with [#]; the lines that qualify are all returned, in their
    order, and nothing is returned when the file cannot be read. *)
Theorem read_group_list_entries (file : ReadLines) :
  let groups := (read_group_list file).1 in
  Forall (fun g => g <> [] /\ strip isspace g = g /\ starts_with (py "#") g = false)
    groups
  /\ match file with
     | Lines lines =>
         groups = List.filter
                    (fun line => negb (is_empty line)
                                 && negb (starts_with (py "#") line))
                    (List.map (strip isspace) lines)
     | _ => groups = []
     end.
Proof.
  destruct file as [lines| |]; cbn zeta; cbn [read_group_list fst];
    [|by split..].
  rewrite group_lines_filter. cbn [app]. split; [|done].
  apply Forall_forall. intros g Hin. apply list_elem_of_In in Hin.
  apply filter_In in Hin as [Hin Hkeep].
  apply in_map_iff in Hin as (line & <- & _).
  apply andb_prop in Hkeep as [Hne Hc].
  split; [by destruct (strip isspace line)|].
  split; [apply strip_strip|]. by destruct (starts_with _ _).
Qed.

(** ** generate_folders.py: a whole run *)

Section WholeRun.
Variable lower : Str -> Str.
Variable env_google_api_key : option Str.
Variable markdown : FS -> Path -> Str -> Str -> option Str.





End WholeRun.


(** ** organize_with_gemini.py: a whole run *)






Section OrganizeRun.
Variable uni_alnum : N -> bool.
Variable lower : Str -> Str.
Variable env_google_api_key : option Str.
Variable gemini : FS -> Path -> Str -> Str -> Str.



End OrganizeRun.

